(** * Podcast downloader: selection parser, source resolver, acquisition

    A shallow embedding of [main.py].  Python [str] values are Rocq
    [string]s, every [ascii] standing for the code point of the same number
    (0 to 255); code points above 255 are outside the model.  Python [int]
    is [Z].  The filesystem is a finite map from paths to file contents,
    and the effects of [download_episode] (files, HTTP, the FFmpeg process,
    printed messages) are threaded through a small state-and-exception
    monad.

    What the model leaves out:
    - [int(str)] has no limit on the number of digits; CPython from 3.11
      on refuses more than [int_max_str_digits] of them.  The statement on
      the forms [f<N>] and [l<N>] is for numbers within that limit; the
      statements on a single number and on a range differ from the
      interpreter only for a total of more than that many digits;
    - every entry of a feed has a title ([entry.title] raises an
      [AttributeError] otherwise);
    - [open] and [os.remove] succeed: no path is a directory, and every
      name is one the system accepts.  The statements on
      [download_episode] are on runs where they do;
    - no [KeyboardInterrupt] arrives, so the [sys.exit(0)] of [main] is
      never taken. *)

From Stdlib Require Import ZArith Lia List Ascii String Sorted.
From Stdlib Require Import Init.Byte.
From stdpp Require Import base option list list_numbers strings gmap.

Local Open Scope Z_scope.

(** ** Characters *)

Module Char.

Definition code (c : ascii) : Z := Z.of_N (N_of_ascii c).

Definition of_code (n : Z) : ascii := ascii_of_N (Z.to_N n).

(** [str.isspace], which is also what [str.strip()] removes and what the
    pattern [\s] matches. *)
Definition isspace (c : ascii) : bool :=
  let n := code c in
  ((9 <=? n) && (n <=? 13)) || ((28 <=? n) && (n <=? 32))
  || (n =? 133) || (n =? 160).

(** The white space that [int()] skips around a literal: narrower than
    [isspace], the separators 28 to 31 are not accepted. *)
Definition int_isspace (c : ascii) : bool :=
  let n := code c in
  ((9 <=? n) && (n <=? 13)) || (n =? 32) || (n =? 133) || (n =? 160).

(** The pattern [\d]; below code point 256 only the ten ASCII digits. *)
Definition isdigit (c : ascii) : bool :=
  let n := code c in (48 <=? n) && (n <=? 57).

Definition digit_value (c : ascii) : Z := code c - 48.

Definition of_digit (d : Z) : ascii := of_code (48 + d).

(** [str.lower] on one code point. *)
Definition lower (c : ascii) : ascii :=
  let n := code c in
  if ((65 <=? n) && (n <=? 90))
     || ((192 <=? n) && (n <=? 222) && negb (n =? 215))
  then of_code (n + 32) else c.

Definition eqb (a b : ascii) : bool := Ascii.eqb a b.

Definition dquote : ascii := "034"%char.

(** The character class of the first substitution of
    [sanitize_filename]: backslash, slash, star, question mark, colon,
    double quote, angle brackets and the vertical bar. *)
Definition illegal (c : ascii) : bool :=
  eqb c "\" || eqb c "/" || eqb c "*" || eqb c "?" || eqb c ":"
  || eqb c dquote || eqb c "<" || eqb c ">" || eqb c "|".

(** The class [[\s-]] of the second substitution. *)
Definition sep_class (c : ascii) : bool := isspace c || eqb c "-".

End Char.

(** ** Strings *)

Module Str.

Fixpoint all (p : ascii -> bool) (s : string) : bool :=
  match s with
  | EmptyString => true
  | String c t => p c && all p t
  end.

Fixpoint any (p : ascii -> bool) (s : string) : bool :=
  match s with
  | EmptyString => false
  | String c t => p c || any p t
  end.

Fixpoint filter_out (p : ascii -> bool) (s : string) : string :=
  match s with
  | EmptyString => EmptyString
  | String c t => if p c then filter_out p t else String c (filter_out p t)
  end.

Fixpoint map (f : ascii -> ascii) (s : string) : string :=
  match s with
  | EmptyString => EmptyString
  | String c t => String (f c) (map f t)
  end.

Fixpoint lstrip (p : ascii -> bool) (s : string) : string :=
  match s with
  | EmptyString => EmptyString
  | String c t => if p c then lstrip p t else s
  end.

Fixpoint rstrip (p : ascii -> bool) (s : string) : string :=
  match s with
  | EmptyString => EmptyString
  | String c t =>
      match rstrip p t with
      | EmptyString => if p c then EmptyString else String c EmptyString
      | t' => String c t'
      end
  end.

(** [s.strip(chars)] with [p] the membership test of [chars]. *)
Definition strip (p : ascii -> bool) (s : string) : string :=
  rstrip p (lstrip p s).

(** [s[:n]] *)
Fixpoint take (n : nat) (s : string) : string :=
  match n, s with
  | S n', String c t => String c (take n' t)
  | _, _ => EmptyString
  end.

Fixpoint startswith (p s : string) : bool :=
  match p, s with
  | EmptyString, _ => true
  | String a p', String b s' => Char.eqb a b && startswith p' s'
  | String _ _, EmptyString => false
  end.

(** [p in s] *)
Fixpoint contains (p s : string) : bool :=
  startswith p s ||
  match s with
  | EmptyString => false
  | String _ t => contains p t
  end.

(** [s.split(sep)] for a one-character separator: never empty. *)
Fixpoint split (sep : ascii) (s : string) : list string :=
  match s with
  | EmptyString => [EmptyString]
  | String c t =>
      if Char.eqb c sep then EmptyString :: split sep t
      else match split sep t with
           | h :: r => String c h :: r
           | [] => [String c EmptyString]
           end
  end.

(** [re.sub(r'[cls]+', rep, s)] for a character class: every maximal run
    of characters of the class becomes one [rep].  [in_run] tells that the
    previous character was of the class, so that the current run already
    has its [rep]. *)
Fixpoint collapse_from (cls : ascii -> bool) (rep : ascii) (in_run : bool)
    (s : string) : string :=
  match s with
  | EmptyString => EmptyString
  | String c t =>
      if cls c then
        if in_run then collapse_from cls rep true t
        else String rep (collapse_from cls rep true t)
      else String c (collapse_from cls rep false t)
  end.

Definition collapse (cls : ascii -> bool) (rep : ascii) (s : string) : string :=
  collapse_from cls rep false s.

Definition head (s : string) : option ascii :=
  match s with
  | EmptyString => None
  | String c _ => Some c
  end.

Fixpoint last (s : string) : option ascii :=
  match s with
  | EmptyString => None
  | String c EmptyString => Some c
  | String _ t => last t
  end.

(** [c * n] *)
Fixpoint replicate (n : nat) (c : ascii) : string :=
  match n with
  | O => EmptyString
  | S n' => String c (replicate n' c)
  end.

End Str.

(** ** [sanitize_filename] *)

Definition is_underscore (c : ascii) : bool := Char.eqb c "_".

Definition sanitize_filename (filename : string) : string :=
  let sanitized := Str.filter_out Char.illegal filename in
  let sanitized := Str.collapse Char.sep_class "_" sanitized in
  let sanitized := Str.strip is_underscore sanitized in
  Str.take 200 sanitized.

(** *** The contract of [sanitize_filename], by runs

    A string cut into runs: blocks of characters that are all in a class,
    or all outside it.  The cut is into maximal runs when neighbours are
    of different kinds. *)

Definition join (l : list string) : string := foldr String.append EmptyString l.

(** The kind of a run: [Some true] for a run of the class, [Some false]
    for a run outside it, [None] for the empty string and for a mix. *)
Definition run_kind (cls : ascii -> bool) (r : string) : option bool :=
  match r with
  | EmptyString => None
  | String c t =>
      if Str.all (fun d => Bool.eqb (cls d) (cls c)) t then Some (cls c) else None
  end.

Fixpoint maximal_runs (cls : ascii -> bool) (rs : list string) : bool :=
  match rs with
  | [] => true
  | r :: rest =>
      match run_kind cls r, rest with
      | None, _ => false
      | Some _, [] => true
      | Some k, r' :: _ =>
          match run_kind cls r' with
          | Some k' => negb (Bool.eqb k k') && maximal_runs cls rest
          | None => false
          end
      end
  end.

(** A run of the class becomes one [rep]; any other run stays. *)
Definition collapse_run (cls : ascii -> bool) (rep : ascii) (r : string) : string :=
  match run_kind cls r with
  | Some true => String rep EmptyString
  | _ => r
  end.

(** The maximal runs of a string. *)
Fixpoint runs (cls : ascii -> bool) (s : string) : list string :=
  match s with
  | EmptyString => []
  | String c t =>
      match runs cls t with
      | String d r :: rest =>
          if Bool.eqb (cls c) (cls d) then String c (String d r) :: rest
          else String c EmptyString :: String d r :: rest
      | _ => [String c EmptyString]
      end
  end.

(** ** Integers and text *)

(** The rest of a decimal literal after a digit: further digits, each of
    them possibly preceded by one underscore. *)
Fixpoint int_digits (acc : Z) (s : string) : option Z :=
  match s with
  | EmptyString => Some acc
  | String c t =>
      if Char.isdigit c then int_digits (10 * acc + Char.digit_value c) t
      else if Char.eqb c "_" then
        match t with
        | String d t' =>
            if Char.isdigit d then int_digits (10 * acc + Char.digit_value d) t'
            else None
        | EmptyString => None
        end
      else None
  end.

Definition int_literal (s : string) : option Z :=
  match s with
  | String c t => if Char.isdigit c then int_digits (Char.digit_value c) t else None
  | EmptyString => None
  end.


(** [int(s)] for a [str]: [None] stands for the [ValueError].  The limit
    [int_max_str_digits] is not part of this function: it converts every
    literal, however long. *)
Definition py_int (s : string) : option Z :=
  match Str.strip Char.int_isspace s with
  | String "+" t => int_literal t
  | String "-" t => Z.opp <$> int_literal t
  | s' => int_literal s'
  end.

(** [str(n)] for an [int]; the fuel bounds the number of digits. *)
Fixpoint str_digits (fuel : nat) (n : Z) (acc : string) : string :=
  let acc' := String (Char.of_digit (n mod 10)) acc in
  match fuel with
  | O => acc'
  | S fuel' => if n / 10 =? 0 then acc' else str_digits fuel' (n / 10) acc'
  end.

Definition py_str (n : Z) : string :=
  if n <? 0 then String "-" (str_digits (Z.to_nat (Z.log2 (- n))) (- n) EmptyString)
  else str_digits (Z.to_nat (Z.log2 n)) n EmptyString.

(** [list(range(a, b))] *)
Definition py_range (a b : Z) : list Z := seqZ a (b - a).

(** [re.search] for a pattern made of the letter [c] and the group [(\d+)]:
    the leftmost [c] that a digit follows, and the longest run of digits
    after it as group 1. *)
Fixpoint take_digits (s : string) : string :=
  match s with
  | String c t => if Char.isdigit c then String c (take_digits t) else EmptyString
  | EmptyString => EmptyString
  end.

Fixpoint re_search_digits (c : ascii) (s : string) : option string :=
  match s with
  | EmptyString => None
  | String a t =>
      match take_digits t with
      | String _ _ as g => if Char.eqb a c then Some g else re_search_digits c t
      | EmptyString => re_search_digits c t
      end
  end.

(** ** [parse_range_input] *)

Definition normalize (user_input : string) : string :=
  Str.filter_out (Char.eqb " ")
    (Str.map Char.lower (Str.strip Char.isspace user_input)).

Definition invalid_selection : list Z * option string :=
  ([], Some "Invalid selection format.").

(** The pair returned is the Python tuple: the indices and the error, which
    is [None] on success.  Every exception raised inside the [try] ends, by
    the bare [except], in the final [return]. *)
Definition parse_range_input (user_input : string) (total_episodes : Z)
  : list Z * option string :=
  let user_input := normalize user_input in
  if String.eqb user_input "all" then (py_range 0 total_episodes, None)
  else if Str.startswith "f" user_input then
    match re_search_digits "f" user_input with
    | Some g =>
        match py_int g with
        | Some n => (py_range 0 (Z.min n total_episodes), None)
        | None => invalid_selection
        end
    | None => invalid_selection
    end
  else if Str.startswith "l" user_input then
    match re_search_digits "l" user_input with
    | Some g =>
        match py_int g with
        | Some n => (py_range (Z.max 0 (total_episodes - n)) total_episodes, None)
        | None => invalid_selection
        end
    | None => invalid_selection
    end
  else if Str.contains "-" user_input then
    match py_int <$> Str.split "-" user_input with
    | [Some start; Some end_] =>
        if (1 <=? start) && (start <=? end_) && (end_ <=? total_episodes)
        then (py_range (start - 1) end_, None)
        else invalid_selection
    | _ => invalid_selection
    end
  else
    match py_int user_input with
    | Some idx =>
        if (1 <=? idx) && (idx <=? total_episodes) then ([idx - 1], None)
        else invalid_selection
    | None => invalid_selection
    end.

(** ** Feed entries and [get_audio_enclosure] *)

(** An enclosure is the dictionary feedparser builds for it; the keys read
    here are [type] and [href].  An entry always has a [title] here; for
    an entry without one, [entry.title] raises an [AttributeError] that
    this record cannot show. *)
Record entry := Entry {
  title : string;
  (** [None] when the entry has no [enclosures] key *)
  enclosures : option (list (gmap string string));
}.

(** [enclosure.get('type', '')] *)
Definition mime_of (enclosure : gmap string string) : string :=
  default EmptyString (enclosure !! "type"%string).

Definition is_opus_mime (mime : string) : bool :=
  Str.contains "opus" mime || Str.contains "ogg" mime.

Definition is_mp3_mime (mime : string) : bool :=
  Str.contains "mpeg" mime || Str.contains "mp3" mime.

(** One [for] loop of the resolver: the first enclosure whose mime type
    passes the test. *)
Fixpoint first_enclosure (test : string -> bool)
    (encs : list (gmap string string)) : option (gmap string string) :=
  match encs with
  | [] => None
  | enclosure :: rest =>
      if test (mime_of enclosure) then Some enclosure
      else first_enclosure test rest
  end.

(** Returns [(url, is_opus)]; the url is [enclosure.get('href')], which is
    [None] for an enclosure without that key. *)
Definition get_audio_enclosure (e : entry) : option string * bool :=
  match enclosures e with
  | None => (None, false)
  | Some encs =>
      match first_enclosure is_opus_mime encs with
      | Some enclosure => (enclosure !! "href"%string, true)
      | None =>
          match first_enclosure is_mp3_mime encs with
          | Some enclosure => (enclosure !! "href"%string, false)
          | None => (None, false)
          end
      end
  end.

Definition enc (mime href : string) : gmap string string :=
  {[ "type"%string := mime; "href"%string := href ]}.

(** ** The world of [download_episode] *)

(** Files of the working directory: path to content. *)
Abbreviation filesystem := (gmap string (list byte)).

(** The exceptions ([Exception] subclasses) the body of [download_episode]
    can meet; a [KeyboardInterrupt] is not one and is not modelled. *)
Inductive exn :=
| ConnectionError      (* [requests.get] fails: no route, refused, timeout *)
| HTTPError            (* [raise_for_status] *)
| ValueError           (* [int] of a malformed content-length *)
| ChunkedEncodingError (* [iter_content] fails in the middle of the body *)
| FileNotFoundError    (* [subprocess.run]: no ffmpeg executable *)
| CalledProcessError   (* [subprocess.run(check=True)]: non-zero exit *)
| OSError.             (* [subprocess.run]: the process cannot be started *)

(** What the server streams: chunks, then the end of the body or a failure
    of the connection. *)
Inductive body :=
| BodyEnd
| BodyChunk (data : list byte) (rest : body)
| BodyBroken.

Record response := Response {
  status_code : Z;
  content_length : option string;
  content : body;
}.

(** What running ffmpeg does: the oracle for the external process. *)
Inductive ffmpeg_result :=
| NotFound
| CannotRun
| Exited (returncode : Z) (after : filesystem).

(** The [print] calls of [convert_to_opus] and [download_episode]. *)
Inductive message :=
| MsgNoAudioUrl (title : string)       (* Skipping ...: No supported audio URL found. *)
| MsgAlreadyExists (path : string)     (* File already exists, skipping: ... *)
| MsgDownloading (title : string)      (* Downloading ... *)
| MsgTranscoding (path : string)       (* Transcoding ... to Opus... *)
| MsgFFmpegNotFound                    (* Error: FFmpeg not found. ... *)
| MsgTranscodeError                    (* Error during transcoding: ... *)
| MsgTranscoded (path : string)        (* Successfully transcoded: ... *)
| MsgDownloaded (path : string)        (* Successfully downloaded: ... *)
| MsgErrorOccurred (e : exn).          (* An error occurred: ... *)

Inductive event :=
| Print (m : message)
| HttpGet (url : string)
| RunFFmpeg (input output : string).

Record state := State {
  files : filesystem;
  trace : list event;
}.

Inductive result (A : Type) :=
| Ok (a : A)
| Raise (e : exn).
Arguments Ok {A} a.
Arguments Raise {A} e.

(** State and exceptions. *)
Definition M (A : Type) : Type := state -> result A * state.

#[global] Instance M_ret : MRet M := fun A a s => (Ok a, s).

#[global] Instance M_bind : MBind M := fun A B k m s =>
  match m s with
  | (Ok a, s') => k a s'
  | (Raise e, s') => (Raise e, s')
  end.

Definition raise {A} (e : exn) : M A := fun s => (Raise e, s).

(** [try: m except Exception as e: h e] *)
Definition try_except {A} (m : M A) (h : exn -> M A) : M A := fun s =>
  match m s with
  | (Ok a, s') => (Ok a, s')
  | (Raise e, s') => h e s'
  end.

Definition emit (ev : event) : M unit := fun s =>
  (Ok tt, State (files s) (trace s ++ [ev])).

Definition print (m : message) : M unit := emit (Print m).

(** [os.path.exists] *)
Definition path_exists (path : string) : M bool := fun s =>
  (Ok (bool_decide (is_Some (files s !! path))), s).

(** [os.remove] of a file that exists.  The filesystem holds files only,
    so the removal succeeds; the error that [os.remove] raises for a
    directory is outside the model. *)
Definition os_remove (path : string) : M unit := fun s =>
  (Ok tt, State (delete path (files s)) (trace s)).

(** [open(path, 'wb')]: the file is created, or emptied.  The call
    succeeds here; the [OSError] of a name the system refuses (too long, a
    directory, no permission) is outside the model. *)
Definition open_wb (path : string) : M unit := fun s =>
  (Ok tt, State (<[path := []]> (files s)) (trace s)).

(** [f.write(data)] on the file opened at [path] *)
Definition f_write (path : string) (data : list byte) : M unit := fun s =>
  (Ok tt, State (<[path := default [] (files s !! path) ++ data]> (files s)) (trace s)).

(** [r.raise_for_status()]: client and server errors raise *)
Definition raise_for_status (r : response) : M unit :=
  if (400 <=? status_code r) && (status_code r <? 600) then raise HTTPError
  else mret tt.

(** [int(r.headers.get('content-length', 0))] *)
Definition total_size (r : response) : M Z :=
  match content_length r with
  | None => mret 0
  | Some h => match py_int h with Some n => mret n | None => raise ValueError end
  end.

(** The loop over [r.iter_content(8192)] *)
Fixpoint write_chunks (path : string) (b : body) : M unit :=
  match b with
  | BodyEnd => mret tt
  | BodyChunk data rest => f_write path data ;; write_chunks path rest
  | BodyBroken => raise ChunkedEncodingError
  end.

Definition final_of (base_name : string) : string := base_name +:+ ".opus".
Definition temp_of (base_name : string) : string := base_name +:+ ".tmp.mp3".

Section Acquisition.

(** The network: what a GET of the url meets, [None] when no response
    arrives at all.  The encoder: what the ffmpeg command line does to
    the files. *)
Variable http : string -> option response.
Variable ffmpeg : string -> string -> filesystem -> ffmpeg_result.

Definition requests_get (url : string) : M response :=
  emit (HttpGet url) ;;
  match http url with
  | Some r => mret r
  | None => raise ConnectionError
  end.

(** The ffmpeg process itself, with [check=True]. *)
Definition ffmpeg_process (input_path output_path : string) : M unit :=
  fun s =>
    match ffmpeg input_path output_path (files s) with
    | NotFound => (Raise FileNotFoundError, s)
    | CannotRun => (Raise OSError, s)
    | Exited code fs' =>
        (if code =? 0 then Ok tt else Raise CalledProcessError,
         State fs' (trace s))
    end.

(** [subprocess.run(command, check=True, ...)] *)
Definition subprocess_run (input_path output_path : string) : M unit :=
  emit (RunFFmpeg input_path output_path) ;;
  ffmpeg_process input_path output_path.

Definition convert_to_opus (input_path output_path : string) : M bool :=
  print (MsgTranscoding input_path) ;;
  try_except
    (subprocess_run input_path output_path ;; mret true)
    (fun e =>
       match e with
       | FileNotFoundError => print MsgFFmpegNotFound ;; mret false
       | CalledProcessError => print MsgTranscodeError ;; mret false
       | _ => raise e
       end).

Definition download_episode (e : entry) : M unit :=
  let '(audio_url, is_native_opus) := get_audio_enclosure e in
  match audio_url with
  | None | Some EmptyString => print (MsgNoAudioUrl (title e))
  | Some audio_url =>
      let base_name := sanitize_filename (title e) in
      let final_filename := final_of base_name in
      present ← path_exists final_filename;
      if present : bool then print (MsgAlreadyExists final_filename)
      else
        let download_filename :=
          if is_native_opus then final_filename else temp_of base_name in
        print (MsgDownloading (title e)) ;;
        try_except
          (r ← requests_get audio_url;
           raise_for_status r ;;
           _ ← total_size r;
           open_wb download_filename ;;
           write_chunks download_filename (content r) ;;
           if negb is_native_opus then
             success ← convert_to_opus download_filename final_filename;
             present ← path_exists download_filename;
             (if present : bool then os_remove download_filename else mret tt) ;;
             if success : bool then print (MsgTranscoded final_filename)
             else mret tt
           else print (MsgDownloaded final_filename))
          (fun e =>
             print (MsgErrorOccurred e) ;;
             present ← path_exists download_filename;
             if negb is_native_opus && present
             then os_remove download_filename else mret tt)
  end.

End Acquisition.

(** ** Reading the outcome of an acquisition

    [download_episode] returns nothing; what happened to the episode is
    what it printed last.  The outcomes are those of the data model:
    success with the final path, skipped, failed. *)

Inductive skip_reason := NoSupportedAudioUrl | AlreadyDownloaded.

Inductive failure :=
| Exception (e : exn)
| ToolNotFound
| ToolFailed.

Inductive outcome :=
| Success (path : string)
| Skipped (why : skip_reason)
| Failed (why : failure).

Definition outcome_of_message (m : message) : option outcome :=
  match m with
  | MsgNoAudioUrl _ => Some (Skipped NoSupportedAudioUrl)
  | MsgAlreadyExists _ => Some (Skipped AlreadyDownloaded)
  | MsgTranscoded p | MsgDownloaded p => Some (Success p)
  | MsgFFmpegNotFound => Some (Failed ToolNotFound)
  | MsgTranscodeError => Some (Failed ToolFailed)
  | MsgErrorOccurred e => Some (Failed (Exception e))
  | MsgDownloading _ | MsgTranscoding _ => None
  end.

(** The last report of the trace. *)
Fixpoint outcome_of (t : list event) : option outcome :=
  match t with
  | [] => None
  | ev :: rest =>
      match outcome_of rest with
      | Some o => Some o
      | None => match ev with Print m => outcome_of_message m | _ => None end
      end
  end.

(** The truth value of [audio_url]: neither [None] nor the empty string. *)
Definition has_url (audio_url : option string) : bool :=
  match audio_url with
  | Some (String _ _) => true
  | _ => false
  end.

Definition network_calls (t : list event) : list string :=
  omap (fun ev => match ev with HttpGet url => Some url | _ => None end) t.

(** What a response body delivers: all its bytes when it reaches its end,
    and the bytes received before the connection broke otherwise. *)
Fixpoint body_bytes (b : body) : option (list byte) :=
  match b with
  | BodyEnd => Some []
  | BodyChunk data rest => (fun d => data ++ d) <$> body_bytes rest
  | BodyBroken => None
  end.

Fixpoint received (b : body) : list byte :=
  match b with
  | BodyChunk data rest => data ++ received rest
  | BodyEnd | BodyBroken => []
  end.

(** The streaming part of [download_episode] seen from outside: it
    completes with the whole body in the working file, or it raises, before
    the working file is opened ([partial = None]) or after, with the bytes
    written so far. *)
Inductive transfer :=
| Completes (data : list byte)
| Fails (e : exn) (partial : option (list byte)).

Definition transfer_of (reply : option response) : transfer :=
  match reply with
  | None => Fails ConnectionError None
  | Some r =>
      if (400 <=? status_code r) && (status_code r <? 600)
      then Fails HTTPError None
      else
        match content_length r with
        | Some h =>
            match py_int h with
            | None => Fails ValueError None
            | Some _ =>
                match body_bytes (content r) with
                | Some data => Completes data
                | None => Fails ChunkedEncodingError (Some (received (content r)))
                end
            end
        | None =>
            match body_bytes (content r) with
            | Some data => Completes data
            | None => Fails ChunkedEncodingError (Some (received (content r)))
            end
        end
  end.

(** Characters that [normalize] leaves alone: no white space, no upper
    case. *)
Definition plain (c : ascii) : bool :=
  negb (Char.isspace c) && Char.eqb (Char.lower c) c.

(** ** The episode list and the main loop *)

(** An entry of the feed as the listing reads it: the entry that
    [download_episode] receives, and its [published] key. *)
Record episode := Episode {
  entry_of : entry;
  published : option string;
}.

(** What [feedparser.parse] returns: the channel dictionary [feed.feed]
    and the entries. *)
Record feed := Feed {
  channel : gmap string string;
  entries : list episode;
}.

(** [s.zfill(width)] for a string of digits *)
Definition zfill (width : nat) (s : string) : string :=
  Str.replicate (width - String.length s) "0" +:+ s.

(** The format [{n:03}]: at least three characters, zeros after the
    sign. *)
Definition py_format_03 (n : Z) : string :=
  if n <? 0 then String "-" (zfill 2 (py_str (- n)))
  else zfill 3 (py_str n).

(** The lines the program prints outside [download_episode]. *)
Inductive line :=
| Fetching (url : string)                  (* Fetching feed from: ... *)
| NoEpisodes                               (* Error: No episodes found in this feed. *)
| FetchFailed                              (* An error occurred while fetching the feed *)
| Rule                                     (* seventy equal signs *)
| PodcastTitle (name : string)             (* Podcast: ... *)
| TotalAvailable (n : Z)                   (* Total Episodes Available: ... *)
| EpisodeLine (label name pub_date : string) (* [label] title (date) *)
| HiddenLine (n : Z)                       (* ... (n episodes hidden) ... *)
| Blank
| Banner                                   (* --- Python Podcast Downloader ... --- *)
| SelectionError (msg : string)            (* Error: ... *)
| ProcessFinished.                         (* --- Process finished --- *)

(** Exceptions that nothing in the program catches. *)
Inductive crash :=
| EOFError                 (* [input] at the end of the input *)
| AttributeError           (* [feed.feed.title] of a channel without title *)
| IndexError               (* [feed.entries[index]] out of range *)
| Uncaught (e : exn).      (* an exception leaving [download_episode] *)

(** [for i, entry in enumerate(ep_list)] of [print_range] *)
Definition print_range (ep_list : list episode) (start_index : Z) : list line :=
  imap (fun i ep =>
          EpisodeLine (py_format_03 (start_index + Z.of_nat i + 1))
                      (title (entry_of ep))
                      (default "No date"%string (published ep)))
       ep_list.

Definition display_limit : nat := 5.

(** [display_episodes]: the lines printed, and the exception when the
    channel has keys but no title. *)
Definition display_episodes (f : option feed) : list line * option crash :=
  match f with
  | None => ([], None)
  | Some f =>
      if bool_decide (channel f = ∅) then ([], None)
      else
        match channel f !! "title"%string with
        | None => ([Rule], Some AttributeError)
        | Some name =>
            let total := length (entries f) in
            ([Rule; PodcastTitle name; TotalAvailable (Z.of_nat total); Rule]
             ++ (if (total <=? display_limit * 2)%nat
                 then print_range (entries f) 0
                 else print_range (take display_limit (entries f)) 0
                      ++ [HiddenLine (Z.of_nat total - 2 * Z.of_nat display_limit)]
                      ++ print_range (drop (total - display_limit) (entries f))
                           (Z.of_nat total - Z.of_nat display_limit))
             ++ [Blank],
             None)
        end
  end.

(** [seq[index]] for a Python list: negative indices count from the end,
    [None] stands for the [IndexError]. *)
Definition py_index {A} (l : list A) (index : Z) : option A :=
  if 0 <=? index then l !! Z.to_nat index
  else if - Z.of_nat (length l) <=? index
       then l !! Z.to_nat (Z.of_nat (length l) + index)
       else None.

(** The truth value of a string or [None]. *)
Definition py_truthy (s : option string) : bool :=
  match s with
  | Some (String _ _) => true
  | _ => false
  end.

Definition default_url : string := "https://feeds.podcastindex.org/pc20.xml".

(** How [main] ends: [sys.exit], the end of the function, or an exception
    that leaves it. *)
Inductive ending :=
| SysExit (code : Z)
| Returned
| Crashed (c : crash).

(** What [main] writes: its own lines, the prompts, and what each
    [download_episode] did. *)
Inductive output :=
| Line (l : line)
| PromptUrl
| PromptSelection (total : Z)
| Acquisition (ev : event).

Section Main.

Variable feedparser_parse : string -> option feed.
Variable http : string -> option response.
Variable ffmpeg : string -> string -> filesystem -> ffmpeg_result.

(** [fetch_feed]: [None] of the oracle stands for an exception of
    [feedparser.parse]. *)
Definition fetch_feed (url : string) : list line * option feed :=
  match feedparser_parse url with
  | None => ([Fetching url; FetchFailed], None)
  | Some f =>
      match entries f with
      | [] => ([Fetching url; NoEpisodes], None)
      | _ :: _ => ([Fetching url], Some f)
      end
  end.

(** The [for index in indices] loop of [main].  No [KeyboardInterrupt]
    arrives in the model, so the handler with [sys.exit(0)] has no branch
    here. *)
Fixpoint download_all (eps : list episode) (indices : list Z) (fs : filesystem)
  : list output * filesystem * option crash :=
  match indices with
  | [] => ([], fs, None)
  | index :: rest =>
      match py_index eps index with
      | None => ([], fs, Some IndexError)
      | Some ep =>
          match download_episode http ffmpeg (entry_of ep) (State fs []) with
          | (Ok _, s') =>
              let '(out, fs', c) := download_all eps rest (files s') in
              ((Acquisition <$> trace s') ++ out, fs', c)
          | (Raise e, s') =>
              (Acquisition <$> trace s', files s', Some (Uncaught e))
          end
      end
  end.

(** The [while True] loop of [main], one turn for each line typed. *)
Fixpoint main_loop (eps : list episode) (inputs : list string) (fs : filesystem)
  : list output * filesystem * ending :=
  let total := Z.of_nat (length eps) in
  match inputs with
  | [] => ([PromptSelection total], fs, Crashed EOFError)
  | typed :: rest =>
      let choice := Str.map Char.lower (Str.strip Char.isspace typed) in
      if String.eqb choice "q" then ([PromptSelection total], fs, Returned)
      else
        let '(indices, error) := parse_range_input choice total in
        if py_truthy error then
          let '(out, fs', e) := main_loop eps rest fs in
          (PromptSelection total :: Line (SelectionError (default EmptyString error)) :: out,
           fs', e)
        else
          match download_all eps indices fs with
          | (out1, fs1, Some c) => (PromptSelection total :: out1, fs1, Crashed c)
          | (out1, fs1, None) =>
              let '(out, fs', e) := main_loop eps rest fs1 in
              (PromptSelection total :: out1 ++ Line ProcessFinished :: out, fs', e)
          end
  end.

Definition main (inputs : list string) (fs : filesystem)
  : list output * filesystem * ending :=
  match inputs with
  | [] => ([Line Banner; PromptUrl], fs, Crashed EOFError)
  | typed :: rest =>
      let url := match typed with EmptyString => default_url | _ => typed end in
      match fetch_feed url with
      | (lines, None) => (Line Banner :: PromptUrl :: (Line <$> lines), fs, SysExit 1)
      | (lines, Some f) =>
          match display_episodes (Some f) with
          | (shown, Some c) =>
              (Line Banner :: PromptUrl :: (Line <$> (lines ++ shown)), fs, Crashed c)
          | (shown, None) =>
              let '(out, fs', e) := main_loop (entries f) rest fs in
              (Line Banner :: PromptUrl :: (Line <$> (lines ++ shown)) ++ out, fs', e)
          end
      end
  end.

End Main.

(** A directory separator of a path. *)
Definition is_path_separator (c : ascii) : bool := Char.eqb c "/" || Char.eqb c "\".

(** The line of the listing for the entry at index [k] of the feed. *)
Definition line_of (k : nat) (ep : episode) : line :=
  EpisodeLine (py_format_03 (Z.of_nat k + 1)) (title (entry_of ep))
              (default "No date"%string (published ep)).

(** ** Sample worlds

    A server that streams three bytes in two chunks, one that breaks after
    the first chunk, one that answers 304; an encoder that fails without
    writing and one that writes its output. *)

Definition http_ok (url : string) : option response :=
  Some (Response 200 (Some "3"%string) (BodyChunk [x41; x42] (BodyChunk [x43] BodyEnd))).

Definition http_broken (url : string) : option response :=
  Some (Response 200 None (BodyChunk [x41; x42] BodyBroken)).

Definition http_not_modified (url : string) : option response :=
  Some (Response 304 None BodyEnd).

Definition http_down (url : string) : option response := None.

Definition ffmpeg_fails (input output : string) (fs : filesystem) : ffmpeg_result :=
  Exited 1 fs.

Definition ffmpeg_works (input output : string) (fs : filesystem) : ffmpeg_result :=
  Exited 0 (<[output := [x4f]]> fs).

(** An encoder that has written a part of its output when it fails. *)
Definition ffmpeg_partial (input output : string) (fs : filesystem) : ffmpeg_result :=
  Exited 1 (<[output := [x4f]]> fs).

Definition mp3_entry : entry :=
  Entry "Ep 1: Pilot" (Some [enc "audio/mpeg" "http://h/1.mp3"]).

Definition opus_entry : entry :=
  Entry "Ep 2" (Some [enc "audio/mpeg" "http://h/2.mp3";
                      enc "audio/ogg; codecs=opus" "http://h/2.opus"]).

(** An opus enclosure that carries no [href]. *)
Definition opus_entry_no_href : entry :=
  Entry "Ep 3" (Some [{[ "type"%string := "audio/opus"%string ]};
                      enc "audio/mpeg" "http://h/3.mp3"]).

Definition silent_entry : entry := Entry "Ep 4" None.

(** * Properties *)

(** ** Characters and strings *)

Ltac ascii_cases c := destruct c as [[] [] [] [] [] [] [] []].

Module CharFacts.

Lemma isdigit_isspace c : Char.isdigit c = true -> Char.isspace c = false.
Proof. ascii_cases c; vm_compute; congruence. Qed.

Lemma isdigit_int_isspace c : Char.isdigit c = true -> Char.int_isspace c = false.
Proof. ascii_cases c; vm_compute; congruence. Qed.

Lemma isdigit_lower c : Char.isdigit c = true -> Char.lower c = c.
Proof. ascii_cases c; vm_compute; congruence. Qed.

Lemma isdigit_not c d :
  Char.isdigit d = false -> Char.isdigit c = true -> Char.eqb c d = false.
Proof.
  intros Hd Hc. unfold Char.eqb. destruct (Ascii.eqb_spec c d); congruence.
Qed.

Lemma isspace_space c : Char.isspace c = false -> Char.eqb " " c = false.
Proof.
  intros H. unfold Char.eqb. destruct (Ascii.eqb_spec " " c); [subst; discriminate | done].
Qed.

Lemma of_digit_isdigit d : 0 <= d < 10 -> Char.isdigit (Char.of_digit d) = true.
Proof.
  intros H.
  assert (d = 0 \/ d = 1 \/ d = 2 \/ d = 3 \/ d = 4 \/ d = 5 \/ d = 6
          \/ d = 7 \/ d = 8 \/ d = 9) as Hd by lia.
  repeat (destruct Hd as [-> | Hd]; [reflexivity |]). subst; reflexivity.
Qed.

Lemma of_digit_value d : 0 <= d < 10 -> Char.digit_value (Char.of_digit d) = d.
Proof.
  intros H.
  assert (d = 0 \/ d = 1 \/ d = 2 \/ d = 3 \/ d = 4 \/ d = 5 \/ d = 6
          \/ d = 7 \/ d = 8 \/ d = 9) as Hd by lia.
  repeat (destruct Hd as [-> | Hd]; [reflexivity |]). subst; reflexivity.
Qed.

End CharFacts.

Module StrFacts.

Lemma all_app p s t : Str.all p (s +:+ t) = Str.all p s && Str.all p t.
Proof. induction s as [|c s IH]; simpl; [done|]. by rewrite IH, andb_assoc. Qed.

Lemma all_impl (p q : ascii -> bool) s :
  (forall c, p c = true -> q c = true) -> Str.all p s = true -> Str.all q s = true.
Proof.
  intros Hpq. induction s as [|c s IH]; simpl; [done|].
  intros [Hc Hs]%andb_true_iff. rewrite (Hpq c Hc). simpl. auto.
Qed.

Lemma all_none (p q : ascii -> bool) s :
  (forall c, p c = true -> q c = false) -> Str.all p s = true -> Str.any q s = false.
Proof.
  intros Hpq. induction s as [|c s IH]; simpl; [done|].
  intros [Hc Hs]%andb_true_iff. rewrite (Hpq c Hc). simpl. auto.
Qed.

Lemma lstrip_id p s : Str.any p s = false -> Str.lstrip p s = s.
Proof. destruct s as [|c s]; simpl; [done|]. intros [-> _]%orb_false_iff. done. Qed.

Lemma rstrip_id p s : Str.any p s = false -> Str.rstrip p s = s.
Proof.
  induction s as [|c s IH]; simpl; [done|].
  intros [Hc Hs]%orb_false_iff. rewrite (IH Hs), Hc. by destruct s.
Qed.

Lemma strip_id p s : Str.any p s = false -> Str.strip p s = s.
Proof. intros H. unfold Str.strip. by rewrite (lstrip_id _ _ H), rstrip_id. Qed.

Lemma filter_out_id p s : Str.any p s = false -> Str.filter_out p s = s.
Proof.
  induction s as [|c s IH]; simpl; [done|].
  intros [-> Hs]%orb_false_iff. by rewrite IH.
Qed.

Lemma map_id (p : ascii -> bool) f s :
  (forall c, p c = true -> f c = c) -> Str.all p s = true -> Str.map f s = s.
Proof.
  intros Hf. induction s as [|c s IH]; simpl; [done|].
  intros [Hc Hs]%andb_true_iff. by rewrite (Hf c Hc), IH.
Qed.


Lemma app_assoc s t u : (s +:+ t) +:+ u = s +:+ (t +:+ u).
Proof.
  induction s as [|c s IH]; [done|].
  change (String c s +:+ ?x) with (String c (s +:+ x)).
  change (String c (s +:+ t) +:+ u) with (String c ((s +:+ t) +:+ u)).
  by rewrite IH.
Qed.

(** Splitting at the first separator. *)
Lemma split_app sep u v :
  Str.any (fun c => Char.eqb c sep) u = false ->
  Str.split sep (u +:+ String sep v) = u :: Str.split sep v.
Proof.
  induction u as [|c u IH]; simpl.
  - intros _. unfold Char.eqb. by rewrite Ascii.eqb_refl.
  - intros [-> Hu]%orb_false_iff. by rewrite (IH Hu).
Qed.

Lemma split_none sep u :
  Str.any (fun c => Char.eqb c sep) u = false -> Str.split sep u = [u].
Proof.
  induction u as [|c u IH]; simpl; [done|].
  intros [-> Hu]%orb_false_iff. by rewrite (IH Hu).
Qed.

Lemma contains_app_char c u v : Str.contains (String c EmptyString) (u +:+ String c v) = true.
Proof.
  induction u as [|d u IH].
  - simpl. unfold Char.eqb. by rewrite Ascii.eqb_refl.
  - change (String d u +:+ String c v) with (String d (u +:+ String c v)).
    simpl Str.contains. simpl in IH. rewrite IH. apply orb_true_r.
Qed.

End StrFacts.

(** ** Decimal numerals: [int] after [str] *)

Module IntFacts.

Lemma int_digits_app acc s :
  Str.all Char.isdigit s = true ->
  exists v, int_digits acc s = Some v
            /\ forall t, int_digits acc (s +:+ t) = int_digits v t.
Proof.
  revert acc. induction s as [|c s IH]; intros acc; simpl.
  - intros _. by exists acc.
  - intros [Hc Hs]%andb_true_iff.
    destruct (IH (10 * acc + Char.digit_value c) Hs) as (v & Hv & Happ).
    exists v. change (String c s +:+ ?t) with (String c (s +:+ t)).
    simpl. rewrite Hc. split; [done|]. intros t. apply Happ.
Qed.

Lemma str_digits_acc fuel n acc :
  str_digits fuel n acc = str_digits fuel n EmptyString +:+ acc.
Proof.
  revert n acc. induction fuel as [|fuel IH]; intros n acc; simpl; [done|].
  destruct (n / 10 =? 0); [done|].
  rewrite (IH _ (String _ acc)), (IH _ (String _ EmptyString)).
  by rewrite StrFacts.app_assoc.
Qed.

Lemma mod10_bounds n : 0 <= n mod 10 < 10.
Proof. apply Z.mod_pos_bound. lia. Qed.

Lemma str_digits_all fuel n acc :
  Str.all Char.isdigit acc = true ->
  Str.all Char.isdigit (str_digits fuel n acc) = true.
Proof.
  revert n acc. induction fuel as [|fuel IH]; intros n acc Hacc; simpl.
  - by rewrite CharFacts.of_digit_isdigit by apply mod10_bounds.
  - destruct (n / 10 =? 0).
    + simpl. by rewrite CharFacts.of_digit_isdigit by apply mod10_bounds.
    + apply IH. simpl. by rewrite CharFacts.of_digit_isdigit by apply mod10_bounds.
Qed.

Lemma str_digits_not_empty fuel n acc : str_digits fuel n acc <> EmptyString.
Proof.
  revert n acc. induction fuel as [|fuel IH]; intros n acc; simpl; [done|].
  destruct (n / 10 =? 0); [done|]. apply IH.
Qed.

Lemma int_digits_one d : 0 <= d < 10 -> forall acc,
  int_digits acc (String (Char.of_digit d) EmptyString) = Some (10 * acc + d).
Proof.
  intros Hd acc. simpl.
  by rewrite CharFacts.of_digit_isdigit, CharFacts.of_digit_value.
Qed.

Lemma int_digits_str_digits fuel n :
  0 <= n < 2 ^ (Z.of_nat fuel + 1) ->
  int_digits 0 (str_digits fuel n EmptyString) = Some n.
Proof.
  revert n. induction fuel as [|fuel IH]; intros n Hn.
  - change (2 ^ (Z.of_nat 0 + 1)) with 2 in Hn.
    cbn [str_digits]. rewrite int_digits_one by apply mod10_bounds.
    f_equal. rewrite Z.mod_small; lia.
  - cbn [str_digits]. destruct (Z.eqb_spec (n / 10) 0) as [Hq|Hq].
    + rewrite int_digits_one by apply mod10_bounds.
      f_equal. pose proof (Z.div_mod n 10). lia.
    + rewrite str_digits_acc.
      assert (0 <= n / 10 < 2 ^ (Z.of_nat fuel + 1)) as Hn'.
      { split; [apply Z.div_pos; lia|].
        apply Z.div_lt_upper_bound; [lia|].
        replace (Z.of_nat (S fuel) + 1) with (Z.succ (Z.of_nat fuel + 1)) in Hn by lia.
        rewrite Z.pow_succ_r in Hn by lia. lia. }
      destruct (int_digits_app 0 (str_digits fuel (n / 10) EmptyString))
        as (v & Hv & Happ); [by apply str_digits_all|].
      rewrite Happ, (IH _ Hn') in *. injection Hv as <-.
      rewrite int_digits_one by apply mod10_bounds.
      f_equal. pose proof (Z.div_mod n 10). lia.
Qed.

Lemma py_int_digit_string c t :
  Char.isdigit c = true -> Str.all Char.isdigit t = true ->
  py_int (String c t) = int_digits 0 (String c t).
Proof.
  intros Hc Ht. unfold py_int. rewrite StrFacts.strip_id.
  - ascii_cases c; try (vm_compute in Hc; discriminate Hc); reflexivity.
  - simpl. rewrite (CharFacts.isdigit_int_isspace _ Hc). simpl.
    eapply StrFacts.all_none; [|exact Ht]. apply CharFacts.isdigit_int_isspace.
Qed.

Lemma log2_fuel n : 0 <= n -> 0 <= n < 2 ^ (Z.of_nat (Z.to_nat (Z.log2 n)) + 1).
Proof.
  intros Hn. rewrite Z2Nat.id by apply Z.log2_nonneg.
  destruct (Z.eq_dec n 0) as [->|Hz]; [done|].
  pose proof (Z.log2_spec n). lia.
Qed.

(** [str] of a natural number is a non-empty string of digits that [int]
    reads back. *)
Lemma py_str_digits n : 0 <= n ->
  exists c t, py_str n = String c t /\ Char.isdigit c = true
              /\ Str.all Char.isdigit t = true.
Proof.
  intros Hn. unfold py_str. destruct (Z.ltb_spec n 0) as [|_]; [lia|].
  pose proof (str_digits_all (Z.to_nat (Z.log2 n)) n EmptyString eq_refl) as Hall.
  pose proof (str_digits_not_empty (Z.to_nat (Z.log2 n)) n EmptyString) as Hne.
  destruct (str_digits _ n _) as [|c t]; [done|].
  simpl in Hall. apply andb_true_iff in Hall as [Hc Ht]. by exists c, t.
Qed.

Lemma py_int_py_str n : 0 <= n -> py_int (py_str n) = Some n.
Proof.
  intros Hn. destruct (py_str_digits n Hn) as (c & t & Heq & Hc & Ht).
  rewrite Heq, (py_int_digit_string c t Hc Ht), <- Heq.
  unfold py_str. destruct (Z.ltb_spec n 0) as [|_]; [lia|].
  apply int_digits_str_digits, log2_fuel, Hn.
Qed.

End IntFacts.

(** ** The selection parser *)

Module ParseFacts.

Lemma digit_plain c : Char.isdigit c = true -> plain c = true.
Proof.
  intros H. unfold plain, Char.eqb.
  by rewrite (CharFacts.isdigit_isspace _ H), (CharFacts.isdigit_lower _ H),
    Ascii.eqb_refl.
Qed.

Lemma normalize_id s : Str.all plain s = true -> normalize s = s.
Proof.
  intros H. unfold normalize.
  assert (Str.any Char.isspace s = false) as Hsp.
  { eapply StrFacts.all_none; [|exact H].
    intros c [Hc _]%andb_true_iff. by apply negb_true_iff. }
  rewrite StrFacts.strip_id by done.
  rewrite (StrFacts.map_id plain) by
    (done || (intros c [_ Hc]%andb_true_iff; by apply Ascii.eqb_eq)).
  apply StrFacts.filter_out_id.
  eapply StrFacts.all_none; [|exact H].
  intros c [Hc _]%andb_true_iff. apply CharFacts.isspace_space.
  by apply negb_true_iff.
Qed.

Lemma digits_plain s : Str.all Char.isdigit s = true -> Str.all plain s = true.
Proof. apply StrFacts.all_impl, digit_plain. Qed.

Lemma eqb_digit_l c d :
  Char.isdigit d = false -> Char.isdigit c = true -> Char.eqb d c = false.
Proof.
  intros Hd Hc. unfold Char.eqb. rewrite Ascii.eqb_sym.
  by apply CharFacts.isdigit_not.
Qed.

Lemma digits_no_dash s :
  Str.all Char.isdigit s = true -> Str.any (fun c => Char.eqb c "-") s = false.
Proof.
  apply StrFacts.all_none. intros c Hc. by apply CharFacts.isdigit_not.
Qed.

(** [range] is ascending and stays between its bounds. *)
Lemma seqZ_sorted m n : StronglySorted Z.le (seqZ m n).
Proof.
  remember (Z.to_nat n) as k eqn:Hk. revert m n Hk.
  induction k as [|k IH]; intros m n Hk.
  - rewrite seqZ_nil by lia. constructor.
  - rewrite seqZ_cons by lia. constructor.
    + apply IH. lia.
    + apply Forall_seqZ. lia.
Qed.

Lemma py_range_ok lo hi total :
  0 <= lo -> hi <= total ->
  Forall (fun i => 0 <= i < total) (py_range lo hi)
  /\ StronglySorted Z.le (py_range lo hi).
Proof.
  intros Hlo Hhi. split; [|apply seqZ_sorted].
  apply Forall_seqZ. lia.
Qed.



End ParseFacts.

Module RangeFacts.

Import ParseFacts.

Lemma py_str_neg_digits n : n < 0 ->
  exists t, py_str n = String "-" t /\ Str.all Char.isdigit t = true.
Proof.
  intros Hn. unfold py_str. destruct (Z.ltb_spec n 0) as [_|]; [|lia].
  eexists. split; [done|]. by apply IntFacts.str_digits_all.
Qed.

Lemma py_str_plain n : Str.all plain (py_str n) = true.
Proof.
  destruct (Z.lt_ge_cases n 0) as [Hn|Hn].
  - destruct (py_str_neg_digits n Hn) as (t & -> & Ht).
    simpl. by rewrite digits_plain.
  - destruct (IntFacts.py_str_digits n) as (c & t & -> & Hc & Ht); [lia|].
    simpl. by rewrite digit_plain, digits_plain.
Qed.

(** An input that starts with a digit or a hyphen and holds a hyphen is
    handled by the range branch. *)
Lemma parse_dash_branch c x total :
  Str.all plain (String c x) = true ->
  Char.isdigit c = true \/ c = "-"%char ->
  Str.contains "-" (String c x) = true ->
  parse_range_input (String c x) total =
  match py_int <$> Str.split "-" (String c x) with
  | [Some start; Some end_] =>
      if (1 <=? start) && (start <=? end_) && (end_ <=? total)
      then (py_range (start - 1) end_, None)
      else invalid_selection
  | _ => invalid_selection
  end.
Proof.
  intros Hplain Hc Hdash. unfold parse_range_input.
  rewrite normalize_id by done. rewrite Hdash.
  assert (Ascii.eqb c "a" = false /\ Ascii.eqb "f" c = false
          /\ Ascii.eqb "l" c = false) as (Ha & Hf & Hl).
  { destruct Hc as [Hc| ->]; [|done].
    repeat split; [by apply (CharFacts.isdigit_not c "a")
                  | by apply (eqb_digit_l c "f") | by apply (eqb_digit_l c "l")]. }
  cbn [String.eqb Str.startswith]. unfold Char.eqb. by rewrite Ha, Hf, Hl.
Qed.

End RangeFacts.

(** C3. Whenever [parse_range_input] succeeds (the error of the pair is
    [None]), every index it returns lies in [0, total) and the indices come
    in non-decreasing order, the order of the feed. *)
Theorem parse_indices_in_range_sorted (user_input : string) (total : Z)
    (indices : list Z) :
  parse_range_input user_input total = (indices, None) ->
  Forall (fun i => 0 <= i < total) indices /\ StronglySorted Z.le indices.
Proof.
  unfold parse_range_input, invalid_selection. intros H.
  repeat match type of H with
         | context [if ?b then _ else _] => destruct b eqn:?
         | context [match ?x with _ => _ end] => destruct x eqn:?
         end;
    simplify_eq;
    repeat match goal with
           | Hb : _ && _ = true |- _ => apply andb_true_iff in Hb as [? ?]
           end;
    try (apply ParseFacts.py_range_ok; lia).
  split; [constructor; [lia | constructor] | repeat constructor].
Qed.

Lemma parse_indices_in_range_sorted_witness :
  Forall (fun i => 0 <= i < 7) [2; 3; 4] /\ StronglySorted Z.le [2; 3; 4].
Proof.
  apply (parse_indices_in_range_sorted "3 - 5" 7 [2; 3; 4]).
  vm_compute. reflexivity.
Defined.



(** C7. The form [<a>-<b>], one-based and inclusive, selects exactly the
    indices [a-1 .. b-1] when [1 <= a <= b <= total], and is an error for
    all other [a] and [b]: start after end, start below 1, end beyond
    [total]. *)
Theorem range_form (a b total : Z) :
  parse_range_input (py_str a +:+ "-" +:+ py_str b) total =
  if decide (1 <= a /\ a <= b /\ b <= total)
  then (seqZ (a - 1) (b - a + 1), None)
  else ([], Some "Invalid selection format."%string).
Proof.
  change ("-" +:+ py_str b) with (String "-" (py_str b)).
  assert (Str.all plain (py_str a +:+ String "-" (py_str b)) = true) as Hplain.
  { rewrite StrFacts.all_app. simpl. by rewrite !RangeFacts.py_str_plain. }
  destruct (Z.lt_ge_cases a 0) as [Ha|Ha].
  - destruct (RangeFacts.py_str_neg_digits a Ha) as (t & Heq & _).
    rewrite Heq in *.
    change (String "-" t +:+ ?x) with (String "-" (t +:+ x)) in *.
    rewrite RangeFacts.parse_dash_branch by (done || by right).
    destruct (decide _) as [?|_]; [lia|]. reflexivity.
  - destruct (IntFacts.py_str_digits a Ha) as (c & t & Heq & Hc & Ht).
    assert (Str.split "-" (py_str a +:+ String "-" (py_str b))
            = py_str a :: Str.split "-" (py_str b)) as Hsplit.
    { apply StrFacts.split_app. rewrite Heq. apply ParseFacts.digits_no_dash.
      simpl. by rewrite Hc. }
    pose proof (StrFacts.contains_app_char "-" (py_str a) (py_str b)) as Hdash.
    pose proof (IntFacts.py_int_py_str a Ha) as Hinta.
    rewrite Heq in Hplain, Hsplit, Hdash |- *.
    change (String c t +:+ ?x) with (String c (t +:+ x)) in *.
    rewrite RangeFacts.parse_dash_branch by (done || by left).
    rewrite Hsplit, <- Heq. clear Hsplit Hdash Hplain.
    destruct (Z.lt_ge_cases b 0) as [Hb|Hb].
    + destruct (RangeFacts.py_str_neg_digits b Hb) as (t' & -> & _).
      cbn [Str.split Char.eqb Ascii.eqb Bool.eqb andb fmap list_fmap].
      rewrite Hinta. change (py_int EmptyString) with (@None Z).
      destruct (decide _) as [?|_]; [lia|]. reflexivity.
    + destruct (IntFacts.py_str_digits b Hb) as (c' & t'' & Heqb & Hc' & Ht').
      rewrite (StrFacts.split_none "-" (py_str b))
        by (rewrite Heqb; apply ParseFacts.digits_no_dash; simpl; by rewrite Hc').
      cbn [fmap list_fmap]. rewrite Hinta, (IntFacts.py_int_py_str b Hb).
      destruct (decide _) as [Hok|Hno].
      * replace ((1 <=? a) && (a <=? b) && (b <=? total)) with true
          by (symmetry; rewrite !andb_true_iff, !Z.leb_le; lia).
        unfold py_range. do 2 f_equal. lia.
      * replace ((1 <=? a) && (a <=? b) && (b <=? total)) with false; [done|].
        symmetry. apply not_true_iff_false.
        rewrite !andb_true_iff, !Z.leb_le. lia.
Qed.

(** C2. A string with other characters after a recognized prefix is
    taken as the prefix alone: here the first three episodes are selected
    and no error is reported. *)
Theorem parse_trailing_garbage_accepted :
  parse_range_input "f3x" 5 = ([0; 1; 2], None)
  /\ parse_range_input "l2 and more" 5 = ([3; 4], None)
  /\ parse_range_input "fluff12" 20 = (seqZ 0 12, None)
  /\ parse_range_input "3x" 5 = ([], Some "Invalid selection format."%string)
  /\ parse_range_input "2-4x" 5 = ([], Some "Invalid selection format."%string).
Proof. vm_compute. repeat split; reflexivity. Qed.

(** ** The sanitizer *)

Module SanitizeFacts.

Lemma any_filter_out p s : Str.any p (Str.filter_out p s) = false.
Proof.
  induction s as [|c s IH]; simpl; [done|].
  destruct (p c) eqn:Hc; simpl; [done|]. by rewrite Hc.
Qed.

Lemma any_collapse_kept q cls rep b s :
  q rep = false -> Str.any q s = false ->
  Str.any q (Str.collapse_from cls rep b s) = false.
Proof.
  intros Hrep. revert b. induction s as [|c s IH]; intros b; simpl; [done|].
  intros [Hc Hs]%orb_false_iff.
  destruct (cls c), b; simpl; rewrite ?Hrep, ?Hc; simpl; auto.
Qed.

Lemma any_collapse_class cls rep b s :
  cls rep = false -> Str.any cls (Str.collapse_from cls rep b s) = false.
Proof.
  intros Hrep. revert b. induction s as [|c s IH]; intros b; simpl; [done|].
  destruct (cls c) eqn:Hc, b; simpl; rewrite ?Hrep, ?Hc; simpl; auto.
Qed.

Lemma any_lstrip q p s : Str.any q s = false -> Str.any q (Str.lstrip p s) = false.
Proof.
  induction s as [|c s IH]; simpl; [done|].
  intros [Hc Hs]%orb_false_iff. destruct (p c); [auto|].
  simpl. by rewrite Hc, Hs.
Qed.

Lemma any_rstrip q p s : Str.any q s = false -> Str.any q (Str.rstrip p s) = false.
Proof.
  induction s as [|c s IH]; simpl; [done|].
  intros [Hc Hs]%orb_false_iff. specialize (IH Hs).
  destruct (Str.rstrip p s) as [|d u].
  - destruct (p c); simpl; [done|]. by rewrite Hc.
  - change (Str.any q (String c (String d u)))
      with (q c || Str.any q (String d u)). by rewrite Hc, IH.
Qed.

Lemma any_take q n s : Str.any q s = false -> Str.any q (Str.take n s) = false.
Proof.
  revert n. induction s as [|c s IH]; intros [|n]; simpl; try done.
  intros [Hc Hs]%orb_false_iff. by rewrite Hc, IH.
Qed.

Lemma length_take n s : (String.length (Str.take n s) <= n)%nat.
Proof.
  revert s. induction n as [|n IH]; intros [|c s]; simpl; try lia.
  specialize (IH s). lia.
Qed.

Lemma take_all n s : (String.length s <= n)%nat -> Str.take n s = s.
Proof.
  revert s. induction n as [|n IH]; intros [|c s]; simpl; try done; try lia.
  intros H. rewrite IH; [done | lia].
Qed.

Lemma length_take_cut n s :
  (n < String.length s)%nat -> String.length (Str.take n s) = n.
Proof.
  revert s. induction n as [|n IH]; intros [|c s]; simpl; try done; try lia.
  intros H. rewrite IH; [done | lia].
Qed.

Lemma head_lstrip p s c : Str.head (Str.lstrip p s) = Some c -> p c = false.
Proof.
  induction s as [|d s IH]; simpl; [done|].
  destruct (p d) eqn:Hd; [done|]. simpl. by intros [= <-].
Qed.

Lemma head_rstrip p s c :
  Str.head (Str.rstrip p s) = Some c -> Str.head s = Some c.
Proof.
  destruct s as [|d s]; simpl; [done|].
  destruct (Str.rstrip p s); [destruct (p d)|]; simpl; done.
Qed.

Lemma head_take n s c : Str.head (Str.take n s) = Some c -> Str.head s = Some c.
Proof. destruct n, s; simpl; done. Qed.

Lemma last_rstrip p s c : Str.last (Str.rstrip p s) = Some c -> p c = false.
Proof.
  induction s as [|d s IH]; simpl; [done|].
  destruct (Str.rstrip p s) as [|e u] eqn:Hr.
  - destruct (p d) eqn:Hd; simpl; [done|]. by intros [= <-].
  - change (Str.last (String d (String e u))) with (Str.last (String e u)).
    exact IH.
Qed.

(** The pieces of a string around a run of the class are collapsed on
    their own, and the run becomes one replacement character. *)
Lemma collapse_from_class_run cls rep run v :
  Str.all cls run = true ->
  Str.collapse_from cls rep true (run +:+ v) = Str.collapse_from cls rep true v.
Proof.
  induction run as [|c run IH]; [done|].
  change (String c run +:+ v) with (String c (run +:+ v)). simpl.
  intros [-> Hrun]%andb_true_iff. auto.
Qed.

Lemma collapse_from_fresh cls rep v :
  (forall c, Str.head v = Some c -> cls c = false) ->
  Str.collapse_from cls rep true v = Str.collapse_from cls rep false v.
Proof.
  destruct v as [|c v]; simpl; [done|].
  intros H. by rewrite (H c eq_refl).
Qed.

Lemma collapse_from_prefix cls rep b u w :
  (forall c, Str.last u = Some c -> cls c = false) ->
  u <> EmptyString ->
  Str.collapse_from cls rep b (u +:+ w)
  = Str.collapse_from cls rep b u +:+ Str.collapse_from cls rep false w.
Proof.
  revert b. induction u as [|c u IH]; intros b Hlast Hne; [done|].
  change (String c u +:+ w) with (String c (u +:+ w)).
  destruct u as [|d u].
  - simpl. rewrite (Hlast c eq_refl). done.
  - change (Str.last (String c (String d u))) with (Str.last (String d u)) in Hlast.
    cbn [Str.collapse_from].
    destruct (cls c), b; rewrite IH by done; done.
Qed.

Lemma collapse_run cls rep u run v :
  run <> EmptyString -> Str.all cls run = true ->
  (forall c, Str.last u = Some c -> cls c = false) ->
  (forall c, Str.head v = Some c -> cls c = false) ->
  Str.collapse cls rep (u +:+ run +:+ v)
  = Str.collapse cls rep u +:+ String rep (Str.collapse cls rep v).
Proof.
  intros Hne Hrun Hu Hv. unfold Str.collapse.
  assert (Str.collapse_from cls rep false (run +:+ v)
          = String rep (Str.collapse_from cls rep false v)) as Hmid.
  { destruct run as [|c run]; [done|].
    change (String c run +:+ v) with (String c (run +:+ v)).
    simpl in Hrun |- *. apply andb_true_iff in Hrun as [-> Hrun].
    by rewrite collapse_from_class_run, collapse_from_fresh. }
  destruct u as [|c u]; [exact Hmid|].
  rewrite collapse_from_prefix by done. by rewrite Hmid.
Qed.

End SanitizeFacts.

(** *** The runs of a string *)

Module RunsFacts.

Lemma maximal_runs_cons cls r r' rest :
  maximal_runs cls (r :: r' :: rest)
  = match run_kind cls r, run_kind cls r' with
    | Some k, Some k' => negb (Bool.eqb k k') && maximal_runs cls (r' :: rest)
    | _, _ => false
    end.
Proof.
  cbn [maximal_runs]. destruct (run_kind cls r), (run_kind cls r'); reflexivity.
Qed.

Lemma runs_cons cls c t :
  runs cls (String c t)
  = match runs cls t with
    | String d r :: rest =>
        if Bool.eqb (cls c) (cls d) then String c (String d r) :: rest
        else String c EmptyString :: String d r :: rest
    | _ => [String c EmptyString]
    end.
Proof. reflexivity. Qed.

Lemma runs_shape cls c t :
  exists r rest,
    runs cls (String c t) = String c r :: rest
    /\ run_kind cls (String c r) = Some (cls c)
    /\ maximal_runs cls (String c r :: rest) = true.
Proof.
  revert c. induction t as [|d t IH]; intros c.
  - exists EmptyString, []. done.
  - destruct (IH d) as (r & rest & Hruns & Hkind & Hmax).
    rewrite (runs_cons cls c), Hruns.
    destruct (Bool.eqb (cls c) (cls d)) eqn:Hcd.
    + apply Bool.eqb_prop in Hcd.
      assert (run_kind cls (String c (String d r)) = Some (cls c)) as Hkind'.
      { cbn [run_kind Str.all] in Hkind |- *. rewrite <- Hcd in Hkind.
        rewrite Hcd at 1. rewrite Bool.eqb_reflx. cbn [andb].
        by destruct (Str.all _ r). }
      exists (String d r), rest. split; [done|]. split; [done|].
      cbn [maximal_runs] in Hmax |- *. rewrite Hkind'. rewrite Hkind in Hmax.
      by rewrite Hcd.
    + exists EmptyString, (String d r :: rest). split; [done|]. split; [done|].
      rewrite maximal_runs_cons, Hkind, Hmax.
      change (run_kind cls (String c EmptyString)) with (Some (cls c)).
      cbn beta iota. by rewrite Hcd.
Qed.

Lemma maximal_runs_runs cls s : maximal_runs cls (runs cls s) = true.
Proof.
  destruct s as [|c t]; [done|].
  destruct (runs_shape cls c t) as (r & rest & -> & _ & Hmax). done.
Qed.

Lemma join_runs cls s : join (runs cls s) = s.
Proof.
  induction s as [|c t IH]; [done|].
  destruct t as [|d t'].
  - done.
  - destruct (runs_shape cls d t') as (r & rest & Hruns & _).
    rewrite (runs_cons cls c), Hruns. rewrite Hruns in IH.
    destruct (Bool.eqb (cls c) (cls d)); cbn [join foldr] in IH |- *.
    + change (String c (String d r) +:+ ?x) with (String c (String d r +:+ x)).
      by rewrite IH.
    + change (String c EmptyString +:+ ?x) with (String c x).
      by rewrite IH.
Qed.

Lemma collapse_run_class cls rep c r :
  run_kind cls (String c r) = Some (cls c) ->
  collapse_run cls rep (String c r)
  = if cls c then String rep EmptyString else String c r.
Proof. unfold collapse_run. intros ->. by destruct (cls c). Qed.

(** [re.sub] of the class is the replacement of the runs of the class,
    one [rep] for each. *)
Lemma collapse_from_runs cls rep s :
  Str.collapse_from cls rep false s = join (collapse_run cls rep <$> runs cls s)
  /\ (forall c t, s = String c t -> cls c = true ->
      String rep (Str.collapse_from cls rep true s)
      = join (collapse_run cls rep <$> runs cls s)).
Proof.
  induction s as [|c t IH]; [done|].
  destruct IH as [IH0 IH1].
  destruct t as [|d t'].
  - cbn. unfold collapse_run. cbn. split.
    + by destruct (cls c).
    + by intros ? ? [= <- <-] ->.
  - specialize (IH1 d t' eq_refl).
    destruct (runs_shape cls d t') as (r & rest & Hruns & Hkind & _).
    destruct (runs_shape cls c (String d t')) as (r' & rest' & Hruns' & Hkind' & _).
    pose proof (collapse_run_class cls rep d r Hkind) as Hd_run.
    pose proof (collapse_run_class cls rep c r' Hkind') as Hc_run.
    rewrite Hruns in IH0, IH1. rewrite Hruns'.
    rewrite (runs_cons cls c), Hruns in Hruns'.
    cbn [fmap list_fmap join foldr] in IH0, IH1 |- *.
    rewrite Hd_run in IH0, IH1. rewrite Hc_run.
    cbn [Str.collapse_from] in IH0, IH1 |- *.
    destruct (cls c) eqn:Hc, (cls d) eqn:Hd; cbn [Bool.eqb] in Hruns';
      injection Hruns' as <- <-; cbn [fmap list_fmap join foldr];
      rewrite ?Hd_run; cbn beta iota in IH0, IH1 |- *.
    + specialize (IH1 eq_refl). split; [done|]. by intros ? ? [= <- <-] _.
    + split; [by rewrite IH0|]. intros ? ? [= <- <-] _. by rewrite IH0.
    + split; [by rewrite IH0|]. intros ? ? [= <- <-] H. by rewrite Hc in H.
    + split; [by rewrite IH0|]. intros ? ? [= <- <-] H. by rewrite Hc in H.
Qed.

Lemma collapse_runs cls rep s :
  Str.collapse cls rep s = join (collapse_run cls rep <$> runs cls s).
Proof. apply collapse_from_runs. Qed.

Lemma lstrip_split p s :
  exists pre, s = pre +:+ Str.lstrip p s /\ Str.all p pre = true.
Proof.
  induction s as [|c t (pre & IH & Hpre)]; [by exists EmptyString|].
  simpl. destruct (p c) eqn:Hc.
  - exists (String c pre). split; [|simpl; by rewrite Hc].
    change (String c pre +:+ Str.lstrip p t) with (String c (pre +:+ Str.lstrip p t)).
    by f_equal.
  - by exists EmptyString.
Qed.

Lemma rstrip_split p s :
  exists post, s = Str.rstrip p s +:+ post /\ Str.all p post = true.
Proof.
  induction s as [|c t (post & IH & Hpost)]; [by exists EmptyString|].
  cbn [Str.rstrip]. destruct (Str.rstrip p t) as [|d t'] eqn:Ht.
  - change (EmptyString +:+ post) with post in IH. subst post.
    destruct (p c) eqn:Hc.
    + exists (String c t). split; [done|]. simpl. by rewrite Hc.
    + by exists t.
  - exists post. split; [|done].
    change (String c (String d t') +:+ post) with (String c (String d t' +:+ post)).
    by f_equal.
Qed.

Lemma take_split n s :
  exists rest,
    s = Str.take n s +:+ rest
    /\ (rest <> EmptyString -> String.length (Str.take n s) = n).
Proof.
  revert s. induction n as [|n IH]; intros s.
  - exists s. by destruct s.
  - destruct s as [|c t]; [by exists EmptyString|].
    destruct (IH t) as (rest & Heq & Hlen). exists rest. simpl.
    split; [|intros Hrest; by rewrite Hlen].
    change (String c (Str.take n t) +:+ rest) with (String c (Str.take n t +:+ rest)).
    by f_equal.
Qed.

End RunsFacts.

(** C9, as amended.  For every title the sanitized name holds none of the
    characters illegal in file names and no white space or hyphen, and it
    has at most 200 characters.  It is made from the title in this way:
    the title without its illegal characters is cut into its maximal runs
    of separators (white space and hyphens) and of other characters; every
    run of separators becomes one underscore and the other runs stay; the
    underscores at both ends are taken off; and the name is the first 200
    characters of what is left.  So the name never starts with the
    separator, and it can end with one only when the cut at 200 characters
    fell right after it. *)
Theorem sanitize_filename_spec (filename : string) :
  let name := sanitize_filename filename in
  Str.any Char.illegal name = false
  /\ Str.any Char.sep_class name = false
  /\ (String.length name <= 200)%nat
  /\ Str.head name <> Some "_"%char
  /\ (Str.last name = Some "_"%char -> String.length name = 200%nat)
  /\ exists (rs : list string) (pre trimmed post rest : string),
       join rs = Str.filter_out Char.illegal filename
       /\ maximal_runs Char.sep_class rs = true
       /\ join (collapse_run Char.sep_class "_" <$> rs) = pre +:+ trimmed +:+ post
       /\ Str.all is_underscore pre = true
       /\ Str.all is_underscore post = true
       /\ Str.head trimmed <> Some "_"%char
       /\ Str.last trimmed <> Some "_"%char
       /\ trimmed = name +:+ rest
       /\ (rest <> EmptyString -> String.length name = 200%nat).
Proof.
  intros name. subst name. unfold sanitize_filename.
  set (kept := Str.filter_out Char.illegal filename).
  set (joined := Str.collapse Char.sep_class "_" kept).
  set (trimmed := Str.strip is_underscore joined).
  assert (Str.head trimmed <> Some "_"%char) as Hhead.
  { intros H. unfold trimmed, Str.strip in H.
    apply SanitizeFacts.head_rstrip, SanitizeFacts.head_lstrip in H. done. }
  assert (Str.last trimmed <> Some "_"%char) as Hlast.
  { intros H. unfold trimmed, Str.strip in H.
    apply SanitizeFacts.last_rstrip in H. done. }
  split; [|split; [|split; [|split; [|split]]]].
  - apply SanitizeFacts.any_take, SanitizeFacts.any_rstrip, SanitizeFacts.any_lstrip.
    apply SanitizeFacts.any_collapse_kept; [done|].
    apply SanitizeFacts.any_filter_out.
  - apply SanitizeFacts.any_take, SanitizeFacts.any_rstrip, SanitizeFacts.any_lstrip.
    by apply SanitizeFacts.any_collapse_class.
  - apply SanitizeFacts.length_take.
  - intros H. by apply SanitizeFacts.head_take in H.
  - intros H.
    destruct (Nat.le_gt_cases (String.length trimmed) 200) as [Hle|Hgt].
    + rewrite SanitizeFacts.take_all in H by done. done.
    + by apply SanitizeFacts.length_take_cut.
  - destruct (RunsFacts.lstrip_split is_underscore joined) as (pre & Hpre & Hallpre).
    destruct (RunsFacts.rstrip_split is_underscore (Str.lstrip is_underscore joined))
      as (post & Hpost & Hallpost).
    destruct (RunsFacts.take_split 200 trimmed) as (rest & Hrest & Hlen).
    exists (runs Char.sep_class kept), pre, trimmed, post, rest.
    split; [apply RunsFacts.join_runs|].
    split; [apply RunsFacts.maximal_runs_runs|].
    split.
    { rewrite <- RunsFacts.collapse_runs. fold joined.
      rewrite Hpre at 1. by rewrite Hpost at 1. }
    done.
Qed.

Lemma sanitize_filename_spec_witness :
  String.length (sanitize_filename (Str.replicate 199 "a" +:+ " b")) = 200%nat.
Proof.
  destruct (sanitize_filename_spec (Str.replicate 199 "a" +:+ " b"))
    as (_ & _ & _ & _ & Hcut & _).
  apply Hcut. vm_compute. reflexivity.
Defined.

(** C9, as the claim words it, fails where the cut falls after a
    separator: a title of 199 letters, a space and one more letter gives a
    name of 200 characters that ends with the underscore. *)
Lemma sanitize_ends_with_separator :
  sanitize_filename (Str.replicate 199 "a" +:+ " b")
  = Str.replicate 199 "a" +:+ "_"
  /\ Str.last (sanitize_filename (Str.replicate 199 "a" +:+ " b")) = Some "_"%char.
Proof. vm_compute. split; reflexivity. Qed.

(** ** The source resolver *)

Module ResolveFacts.

Lemma first_enclosure_found test pre x post :
  Forall (fun y => test (mime_of y) = false) pre ->
  test (mime_of x) = true ->
  first_enclosure test (pre ++ x :: post) = Some x.
Proof.
  intros Hpre Hx. induction Hpre as [|y pre Hy _ IH]; simpl.
  - by rewrite Hx.
  - by rewrite Hy.
Qed.

Lemma first_enclosure_none test encs :
  Forall (fun y => test (mime_of y) = false) encs ->
  first_enclosure test encs = None.
Proof.
  intros H. induction H as [|y encs Hy _ IH]; simpl; [done|]. by rewrite Hy.
Qed.

End ResolveFacts.

(** C4. The resolver takes the first enclosure of the target family (mime
    type holding opus or ogg) wherever the other enclosures stand, and
    answers its url with [is_opus = true]; without one, the first enclosure
    of the fallback family (mpeg or mp3), with [is_opus = false]; without
    either, and for an entry without enclosures, no url. *)
Theorem resolve_policy (e : entry) :
  (forall pre x post,
     enclosures e = Some (pre ++ x :: post) ->
     Forall (fun y => is_opus_mime (mime_of y) = false) pre ->
     is_opus_mime (mime_of x) = true ->
     get_audio_enclosure e = (x !! "href"%string, true))
  /\ (forall pre x post,
        enclosures e = Some (pre ++ x :: post) ->
        Forall (fun y => is_opus_mime (mime_of y) = false) (pre ++ x :: post) ->
        Forall (fun y => is_mp3_mime (mime_of y) = false) pre ->
        is_mp3_mime (mime_of x) = true ->
        get_audio_enclosure e = (x !! "href"%string, false))
  /\ (forall encs,
        enclosures e = Some encs ->
        Forall (fun y => is_opus_mime (mime_of y) = false) encs ->
        Forall (fun y => is_mp3_mime (mime_of y) = false) encs ->
        get_audio_enclosure e = (None, false))
  /\ (enclosures e = None -> get_audio_enclosure e = (None, false)).
Proof.
  unfold get_audio_enclosure. repeat split.
  - intros pre x post -> Hpre Hx.
    by rewrite (ResolveFacts.first_enclosure_found _ _ _ _ Hpre Hx).
  - intros pre x post -> Hno Hpre Hx.
    rewrite (ResolveFacts.first_enclosure_none _ _ Hno).
    by rewrite (ResolveFacts.first_enclosure_found _ _ _ _ Hpre Hx).
  - intros encs -> Hopus Hmp3.
    by rewrite !ResolveFacts.first_enclosure_none.
  - by intros ->.
Qed.

Lemma resolve_policy_witness :
  get_audio_enclosure
    (Entry "e" (Some [enc "audio/mpeg" "http://h/a.mp3";
                      enc "audio/ogg; codecs=opus" "http://h/a.opus";
                      enc "video/mp4" "http://h/a.mp4"]))
  = (enc "audio/ogg; codecs=opus" "http://h/a.opus" !! "href"%string, true)
  /\ get_audio_enclosure
       (Entry "e" (Some [enc "video/mp4" "http://h/a.mp4";
                         enc "audio/mpeg" "http://h/a.mp3"]))
     = (enc "audio/mpeg" "http://h/a.mp3" !! "href"%string, false)
  /\ get_audio_enclosure (Entry "e" (Some [enc "video/mp4" "http://h/a.mp4"]))
     = (None, false)
  /\ get_audio_enclosure (Entry "e" None) = (None, false).
Proof.
  split; [|split; [|split]].
  - apply (proj1 (resolve_policy _) [enc "audio/mpeg" "http://h/a.mp3"]
             (enc "audio/ogg; codecs=opus" "http://h/a.opus")
             [enc "video/mp4" "http://h/a.mp4"]).
    + reflexivity.
    + constructor; [vm_compute; reflexivity | constructor].
    + vm_compute. reflexivity.
  - apply (proj1 (proj2 (resolve_policy _)) [enc "video/mp4" "http://h/a.mp4"]
             (enc "audio/mpeg" "http://h/a.mp3") []).
    + reflexivity.
    + repeat (constructor; [vm_compute; reflexivity |]). constructor.
    + constructor; [vm_compute; reflexivity | constructor].
    + vm_compute. reflexivity.
  - apply (proj1 (proj2 (proj2 (resolve_policy _))) [enc "video/mp4" "http://h/a.mp4"]).
    + reflexivity.
    + constructor; [vm_compute; reflexivity | constructor].
    + constructor; [vm_compute; reflexivity | constructor].
  - apply (proj2 (proj2 (proj2 (resolve_policy _)))). reflexivity.
Defined.

(** ** Acquisition *)

Module RunFacts.

Lemma temp_not_final base : temp_of base <> final_of base.
Proof.
  unfold temp_of, final_of. intros H.
  apply (inj (String.app base)) in H. discriminate H.
Qed.

Lemma write_chunks_run path b fs tr acc :
  fs !! path = Some acc ->
  write_chunks path b (State fs tr) =
  match body_bytes b with
  | Some data => (Ok tt, State (<[path := acc ++ data]> fs) tr)
  | None => (Raise ChunkedEncodingError, State (<[path := acc ++ received b]> fs) tr)
  end.
Proof.
  revert fs acc. induction b as [|data rest IH|]; intros fs acc Hacc; simpl.
  - rewrite app_nil_r, insert_id by done. reflexivity.
  - unfold mbind, M_bind, f_write. simpl. rewrite Hacc. simpl.
    rewrite (IH _ (acc ++ data)) by apply lookup_insert_eq.
    destruct (body_bytes rest) as [more|]; simpl.
    + by rewrite insert_insert_eq, <- (assoc_L (++)).
    + by rewrite insert_insert_eq, <- (assoc_L (++)).
  - rewrite app_nil_r, insert_id by done. reflexivity.
Qed.

Ltac cleanup :=
  match goal with
  | |- context [bool_decide (is_Some (?m !! ?k))] =>
      let H := fresh in
      destruct (decide (is_Some (m !! k))) as [H|H];
      [ rewrite (bool_decide_eq_true_2 _ H)
      | rewrite (bool_decide_eq_false_2 _ H);
        rewrite ?(delete_id m k) by (by apply eq_None_not_Some) ]
  end.

Lemma exists_written (fs : filesystem) path data :
  bool_decide (is_Some (<[path := data]> fs !! path)) = true.
Proof. apply bool_decide_eq_true_2. rewrite lookup_insert_eq. eauto. Qed.

Ltac run_done :=
  cbn [files trace app negb andb];
  rewrite ?exists_written;
  cbn [files trace app negb andb];
  repeat (cleanup; cbn [files trace app negb andb]);
  rewrite ?delete_insert_eq;
  done.

Section Run.

Variable http : string -> option response.
Variable ffmpeg : string -> string -> filesystem -> ffmpeg_result.

(** What [download_episode] does for an entry that resolved to a url
    and whose final file is not there yet, by what the transfer and
    the encoder do. *)
Lemma download_run e url native fs :
  get_audio_enclosure e = (Some url, native) ->
  url <> EmptyString ->
  fs !! final_of (sanitize_filename (title e)) = None ->
  download_episode http ffmpeg e (State fs []) =
  let final := final_of (sanitize_filename (title e)) in
  let temp := temp_of (sanitize_filename (title e)) in
  let start := [Print (MsgDownloading (title e)); HttpGet url] in
  match transfer_of (http url) with
  | Fails ex partial =>
      (Ok tt,
       State (if native
              then match partial with
                   | Some written => <[final := written]> fs
                   | None => fs
                   end
              else delete temp fs)
             (start ++ [Print (MsgErrorOccurred ex)]))
  | Completes data =>
      if native
      then (Ok tt, State (<[final := data]> fs)
                         (start ++ [Print (MsgDownloaded final)]))
      else
        let tr := start ++ [Print (MsgTranscoding temp); RunFFmpeg temp final] in
        match ffmpeg temp final (<[temp := data]> fs) with
        | NotFound =>
            (Ok tt, State (delete temp fs) (tr ++ [Print MsgFFmpegNotFound]))
        | CannotRun =>
            (Ok tt, State (delete temp fs)
                          (tr ++ [Print (MsgErrorOccurred OSError)]))
        | Exited code after =>
            (Ok tt, State (delete temp after)
                          (tr ++ if code =? 0 then [Print (MsgTranscoded final)]
                                 else [Print MsgTranscodeError]))
        end
  end.
Proof.
  intros Hres Hurl Hfinal. unfold download_episode. rewrite Hres.
  destruct url as [|u0 url']; [done|]. clear Hurl.
  set (url := String u0 url'). clearbody url. clear Hres.
  set (base := sanitize_filename (title e)) in *. clearbody base.
  set (name := title e). clearbody name.
  unfold transfer_of, requests_get, convert_to_opus, subprocess_run,
    ffmpeg_process.
  unfold  print, emit, try_except, raise_for_status, total_size,
    path_exists, os_remove, open_wb, raise, mbind, M_bind, mret, M_ret.
  cbn [files trace]. rewrite Hfinal.
  rewrite bool_decide_eq_false_2 by (by intros [? ?]).
  cbn [app files trace].
  destruct (http url) as [r|]; cbn [files trace app];
    [|destruct native; run_done].
  destruct ((400 <=? status_code r) && (status_code r <? 600));
    cbn [files trace app]; [destruct native; run_done|].
  assert (forall path tr,
            write_chunks path (content r) (State (<[path := []]> fs) tr) =
            match body_bytes (content r) with
            | Some data => (Ok tt, State (<[path := data]> fs) tr)
            | None => (Raise ChunkedEncodingError,
                       State (<[path := received (content r)]> fs) tr)
            end) as Hwrite.
  { intros path tr.
    rewrite (write_chunks_run path _ _ _ []) by apply lookup_insert_eq.
    destruct (body_bytes (content r)); cbn [app]; by rewrite insert_insert_eq. }
  destruct (content_length r) as [h|]; [destruct (py_int h)|];
    cbn [files trace app]; rewrite ?Hwrite;
    try (destruct native; run_done).
  all: destruct (body_bytes (content r)) as [data|]; destruct native;
    cbn [negb files trace app]; try run_done.
  all: match goal with
       | |- context [ffmpeg ?i ?o ?m] =>
           destruct (ffmpeg i o m) as [| |code after]
       end; [| |destruct (code =? 0)]; run_done.
Qed.

Lemma download_no_url e s :
  has_url (get_audio_enclosure e).1 = false ->
  download_episode http ffmpeg e s
  = (Ok tt, State (files s) (trace s ++ [Print (MsgNoAudioUrl (title e))])).
Proof.
  unfold download_episode. destruct (get_audio_enclosure e) as [[[|c u]|] native];
    simpl; done.
Qed.

Lemma download_existing e s :
  has_url (get_audio_enclosure e).1 = true ->
  is_Some (files s !! final_of (sanitize_filename (title e))) ->
  download_episode http ffmpeg e s
  = (Ok tt, State (files s)
                  (trace s ++ [Print (MsgAlreadyExists
                                        (final_of (sanitize_filename (title e))))])).
Proof.
  unfold download_episode. destruct (get_audio_enclosure e) as [[[|c u]|] native];
    simpl; try done.
  intros _ Hex. unfold mbind, M_bind, path_exists.
  by rewrite (bool_decide_eq_true_2 _ Hex).
Qed.

End Run.

End RunFacts.

(** C10. There are entries for which the resolver answers no url together
    with [is_opus = true]: whenever the first enclosure of the target
    family has no [href], the answer is [(None, True)], the fallback
    enclosures are not looked at, and [download_episode] reports the entry
    as having no supported audio url, touching neither the files nor the
    network. *)
Theorem opus_without_href (e : entry) pre x post :
  enclosures e = Some (pre ++ x :: post) ->
  Forall (fun y => is_opus_mime (mime_of y) = false) pre ->
  is_opus_mime (mime_of x) = true ->
  x !! "href"%string = None ->
  get_audio_enclosure e = (None, true)
  /\ forall http ffmpeg fs,
       download_episode http ffmpeg e (State fs [])
       = (Ok tt, State fs [Print (MsgNoAudioUrl (title e))])
       /\ outcome_of [Print (MsgNoAudioUrl (title e))]
          = Some (Skipped NoSupportedAudioUrl).
Proof.
  intros Hencs Hpre Hx Hhref.
  assert (get_audio_enclosure e = (None, true)) as Hres.
  { unfold get_audio_enclosure. rewrite Hencs.
    by rewrite (ResolveFacts.first_enclosure_found _ _ _ _ Hpre Hx), Hhref. }
  split; [done|]. intros http ffmpeg fs. split; [|done].
  rewrite RunFacts.download_no_url; [done|]. by rewrite Hres.
Qed.

Lemma opus_without_href_witness :
  get_audio_enclosure opus_entry_no_href = (None, true)
  /\ forall http ffmpeg fs,
       download_episode http ffmpeg opus_entry_no_href (State fs [])
       = (Ok tt, State fs [Print (MsgNoAudioUrl (title opus_entry_no_href))])
       /\ outcome_of [Print (MsgNoAudioUrl (title opus_entry_no_href))]
          = Some (Skipped NoSupportedAudioUrl).
Proof.
  apply (opus_without_href opus_entry_no_href []
           {[ "type"%string := "audio/opus"%string ]}
           [enc "audio/mpeg" "http://h/3.mp3"]).
  - reflexivity.
  - constructor.
  - vm_compute. reflexivity.
  - vm_compute. reflexivity.
Defined.

(** C5, as amended.  When the final path of an entry is on disk,
    [download_episode] makes no network call and leaves the files as they
    are; what it reports is a skip: already downloaded when the entry
    resolved to a url, no supported audio url when it did not. *)
Theorem existing_final_is_skipped http ffmpeg (e : entry) (fs : filesystem) :
  is_Some (fs !! final_of (sanitize_filename (title e))) ->
  exists tr,
    download_episode http ffmpeg e (State fs []) = (Ok tt, State fs tr)
    /\ network_calls tr = []
    /\ outcome_of tr
       = Some (Skipped (if has_url (get_audio_enclosure e).1
                        then AlreadyDownloaded else NoSupportedAudioUrl)).
Proof.
  intros Hex. destruct (has_url (get_audio_enclosure e).1) eqn:Hurl.
  - eexists. rewrite RunFacts.download_existing by done. done.
  - eexists. rewrite RunFacts.download_no_url by done. done.
Qed.

Lemma existing_final_is_skipped_witness :
  exists tr,
    download_episode http_ok ffmpeg_works mp3_entry
      (State {[ "Ep_1_Pilot.opus"%string := [x4f] ]} [])
    = (Ok tt, State {[ "Ep_1_Pilot.opus"%string := [x4f] ]} tr)
    /\ network_calls tr = []
    /\ outcome_of tr
       = Some (Skipped (if has_url (get_audio_enclosure mp3_entry).1
                        then AlreadyDownloaded else NoSupportedAudioUrl)).
Proof.
  apply (existing_final_is_skipped http_ok ffmpeg_works mp3_entry).
  vm_compute. eauto.
Defined.

(** C5, as the claim words it, fails for an entry without a usable
    enclosure: its final path is on disk, and the report is that there is no
    supported audio url, not that the episode is already downloaded. *)
Lemma existing_final_without_source :
  is_Some (({[ "Ep_4.opus"%string := [x4f] ]} : filesystem)
             !! final_of (sanitize_filename (title silent_entry)))
  /\ outcome_of (trace (download_episode http_ok ffmpeg_works silent_entry
                          (State {[ "Ep_4.opus"%string := [x4f] ]} [])).2)
     = Some (Skipped NoSupportedAudioUrl)
  /\ outcome_of (trace (download_episode http_ok ffmpeg_works silent_entry
                          (State {[ "Ep_4.opus"%string := [x4f] ]} [])).2)
     <> Some (Skipped AlreadyDownloaded).
Proof. vm_compute. split; [eauto | split; [reflexivity | discriminate]]. Qed.

(** C8, as amended.  When the source is not opus and the whole body has
    been streamed to the temporary file, ffmpeg is run on that file with
    the final path as output.  Whatever ffmpeg does, the temporary file is
    gone when [download_episode] returns.  When ffmpeg exits with zero the
    outcome is success with the final path; when it fails (non-zero exit,
    no executable, process not started) the outcome is a failure.
    [download_episode] itself writes nothing to the final path and removes
    nothing from it: when ffmpeg was not started there is no final file,
    and after an exit, zero or not, the final path holds what ffmpeg left
    there. *)
Theorem transcode_after_download http ffmpeg (e : entry) url (fs : filesystem) data :
  get_audio_enclosure e = (Some url, false) ->
  url <> EmptyString ->
  fs !! final_of (sanitize_filename (title e)) = None ->
  transfer_of (http url) = Completes data ->
  let final := final_of (sanitize_filename (title e)) in
  let temp := temp_of (sanitize_filename (title e)) in
  exists fs' tr,
    download_episode http ffmpeg e (State fs []) = (Ok tt, State fs' tr)
    /\ RunFFmpeg temp final ∈ tr
    /\ fs' !! temp = None
    /\ match ffmpeg temp final (<[temp := data]> fs) with
       | Exited code after =>
           fs' = delete temp after
           /\ fs' !! final = after !! final
           /\ (code = 0 -> outcome_of tr = Some (Success final))
           /\ (code <> 0 -> outcome_of tr = Some (Failed ToolFailed))
       | NotFound =>
           fs' = delete temp fs
           /\ outcome_of tr = Some (Failed ToolNotFound)
           /\ fs' !! final = None
       | CannotRun =>
           fs' = delete temp fs
           /\ outcome_of tr = Some (Failed (Exception OSError))
           /\ fs' !! final = None
       end.
Proof.
  intros Hres Hurl Hfinal Hdata final temp.
  pose proof (RunFacts.temp_not_final (sanitize_filename (title e))) as Hne.
  rewrite (RunFacts.download_run http ffmpeg e url false fs Hres Hurl Hfinal).
  cbn zeta. rewrite Hdata. fold final temp in Hne, Hfinal |- *.
  destruct (ffmpeg temp final (<[temp := data]> fs)) as [| |code after].
  - do 2 eexists. split; [done|]. split; [set_solver|].
    split; [apply lookup_delete_eq|]. split; [done|]. split; [done|].
    by rewrite lookup_delete_ne.
  - do 2 eexists. split; [done|]. split; [set_solver|].
    split; [apply lookup_delete_eq|]. split; [done|]. split; [done|].
    by rewrite lookup_delete_ne.
  - do 2 eexists. split; [done|]. split; [set_solver|].
    split; [apply lookup_delete_eq|]. split; [done|].
    split; [by rewrite lookup_delete_ne|].
    destruct (Z.eqb_spec code 0) as [->|Hcode]; by split.
Qed.

Lemma transcode_after_download_witness :
  exists fs' tr,
    download_episode http_ok ffmpeg_fails mp3_entry (State ∅ [])
    = (Ok tt, State fs' tr)
    /\ fs' !! "Ep_1_Pilot.tmp.mp3"%string = None
    /\ fs' !! "Ep_1_Pilot.opus"%string = None
    /\ outcome_of tr = Some (Failed ToolFailed).
Proof.
  destruct (transcode_after_download http_ok ffmpeg_fails mp3_entry
              "http://h/1.mp3" ∅ [x41; x42; x43])
    as (fs' & tr & Hrun & _ & Htemp & _ & Hkept & _ & Hfail).
  - vm_compute. reflexivity.
  - discriminate.
  - vm_compute. reflexivity.
  - vm_compute. reflexivity.
  - exists fs', tr. split; [exact Hrun|]. split; [exact Htemp|].
    split; [|apply Hfail; discriminate].
    etransitivity; [exact Hkept|]. vm_compute. reflexivity.
Defined.

(** C8, as the claim words it, fails for an encoder that has written a
    part of its output when it exits with an error: the outcome is a
    failure, the temporary file is gone, and the final path holds what the
    encoder wrote.  The next run over the entry takes that file for a
    finished download and skips the entry. *)
Lemma failed_encoder_output_survives :
  get_audio_enclosure mp3_entry = (Some "http://h/1.mp3"%string, false)
  /\ transfer_of (http_ok "http://h/1.mp3") = Completes [x41; x42; x43]
  /\ outcome_of (trace (download_episode http_ok ffmpeg_partial mp3_entry
                          (State ∅ [])).2)
     = Some (Failed ToolFailed)
  /\ files (download_episode http_ok ffmpeg_partial mp3_entry (State ∅ [])).2
       !! "Ep_1_Pilot.tmp.mp3"%string
     = None
  /\ files (download_episode http_ok ffmpeg_partial mp3_entry (State ∅ [])).2
       !! "Ep_1_Pilot.opus"%string
     = Some [x4f]
  /\ outcome_of
       (trace (download_episode http_ok ffmpeg_works mp3_entry
                 (State (files (download_episode http_ok ffmpeg_partial mp3_entry
                                  (State ∅ [])).2) [])).2)
     = Some (Skipped AlreadyDownloaded).
Proof. vm_compute. repeat split; reflexivity. Qed.

(** C1, as amended.  When the transfer fails (no response, a status that
    [raise_for_status] rejects, that is 4xx or 5xx, a content length that
    is not a number, or a break in the middle of the body) the outcome is
    a failure.  When the source is not opus the temporary file is removed
    before [download_episode] returns and nothing is put at the final path.
    When the source is opus, the working file is the final path and it is
    not removed: after a break in the middle of the body it stays on disk
    with the bytes received so far. *)
Theorem transport_failure_cleanup http ffmpeg (e : entry) url native
    (fs : filesystem) ex partial :
  get_audio_enclosure e = (Some url, native) ->
  url <> EmptyString ->
  fs !! final_of (sanitize_filename (title e)) = None ->
  transfer_of (http url) = Fails ex partial ->
  let final := final_of (sanitize_filename (title e)) in
  let temp := temp_of (sanitize_filename (title e)) in
  exists fs' tr,
    download_episode http ffmpeg e (State fs []) = (Ok tt, State fs' tr)
    /\ outcome_of tr = Some (Failed (Exception ex))
    /\ (native = false ->
        fs' = delete temp fs /\ fs' !! temp = None /\ fs' !! final = None)
    /\ (native = true ->
        fs' = match partial with
              | Some written => <[final := written]> fs
              | None => fs
              end).
Proof.
  intros Hres Hurl Hfinal Hfail final temp.
  pose proof (RunFacts.temp_not_final (sanitize_filename (title e))) as Hne.
  rewrite (RunFacts.download_run http ffmpeg e url native fs Hres Hurl Hfinal).
  cbn zeta. rewrite Hfail. fold final temp in Hne, Hfinal |- *.
  do 2 eexists. split; [done|]. split; [done|]. split.
  - intros ->. split; [done|]. split; [apply lookup_delete_eq|].
    by rewrite lookup_delete_ne.
  - by intros ->.
Qed.

Lemma transport_failure_cleanup_witness :
  exists fs' tr,
    download_episode http_broken ffmpeg_works mp3_entry (State ∅ [])
    = (Ok tt, State fs' tr)
    /\ outcome_of tr = Some (Failed (Exception ChunkedEncodingError))
    /\ fs' !! "Ep_1_Pilot.tmp.mp3"%string = None
    /\ fs' !! "Ep_1_Pilot.opus"%string = None.
Proof.
  destruct (transport_failure_cleanup http_broken ffmpeg_works mp3_entry
              "http://h/1.mp3" false ∅ ChunkedEncodingError (Some [x41; x42]))
    as (fs' & tr & Hrun & Hout & Hmp3 & _).
  - vm_compute. reflexivity.
  - discriminate.
  - vm_compute. reflexivity.
  - vm_compute. reflexivity.
  - destruct (Hmp3 eq_refl) as (_ & Htemp & Hfinal).
    exists fs', tr. repeat split; assumption.
Defined.

(** C1, as the claim words it, fails for an opus source: the body is
    streamed to the final path, the connection breaks after two bytes, the
    outcome is a failure, and the final path holds the two bytes. *)
Lemma partial_opus_file_survives :
  get_audio_enclosure opus_entry = (Some "http://h/2.opus"%string, true)
  /\ transfer_of (http_broken "http://h/2.opus")
     = Fails ChunkedEncodingError (Some [x41; x42])
  /\ outcome_of (trace (download_episode http_broken ffmpeg_works opus_entry
                          (State ∅ [])).2)
     = Some (Failed (Exception ChunkedEncodingError))
  /\ files (download_episode http_broken ffmpeg_works opus_entry (State ∅ [])).2
       !! "Ep_2.opus"%string
     = Some [x41; x42].
Proof. vm_compute. repeat split; reflexivity. Qed.

(** A response that is neither a success nor an error for
    [raise_for_status], here 304, is written to disk as a download. *)
Example not_modified_is_downloaded :
  outcome_of (trace (download_episode http_not_modified ffmpeg_works opus_entry
                       (State ∅ [])).2)
  = Some (Success "Ep_2.opus"%string).
Proof. vm_compute. reflexivity. Qed.

(** * Further properties *)

(** ** More on the selection parser *)

Module SelectFacts.

Import ParseFacts.

Lemma contains_char_none c s :
  Str.any (fun d => Char.eqb d c) s = false ->
  Str.contains (String c EmptyString) s = false.
Proof.
  induction s as [|d s IH]; [done|].
  cbn [Str.any Str.contains Str.startswith].
  intros [Hd Hs]%orb_false_iff. rewrite (IH Hs).
  unfold Char.eqb in *. rewrite Ascii.eqb_sym, Hd. done.
Qed.

(** A non-empty string of digits goes to the last branch. *)
Lemma parse_digit_string c t total :
  Char.isdigit c = true -> Str.all Char.isdigit t = true ->
  parse_range_input (String c t) total =
  match int_digits 0 (String c t) with
  | Some idx =>
      if (1 <=? idx) && (idx <=? total) then ([idx - 1], None)
      else invalid_selection
  | None => invalid_selection
  end.
Proof.
  intros Hc Ht.
  assert (Str.all Char.isdigit (String c t) = true) as Hall
    by (simpl; by rewrite Hc).
  unfold parse_range_input. rewrite normalize_id by by apply digits_plain.
  rewrite (contains_char_none "-") by by apply digits_no_dash.
  rewrite (IntFacts.py_int_digit_string c t Hc Ht).
  assert (Ascii.eqb c "a" = false /\ Ascii.eqb "f" c = false
          /\ Ascii.eqb "l" c = false) as (Ha & Hf & Hl).
  { repeat split; [by apply (CharFacts.isdigit_not c "a")
                  | by apply (eqb_digit_l c "f") | by apply (eqb_digit_l c "l")]. }
  cbn [String.eqb Str.startswith]. unfold Char.eqb. by rewrite Ha, Hf, Hl.
Qed.

Lemma lower_idem c : Char.lower (Char.lower c) = Char.lower c.
Proof. ascii_cases c; vm_compute; reflexivity. Qed.

Lemma isspace_lower c : Char.isspace (Char.lower c) = Char.isspace c.
Proof. ascii_cases c; vm_compute; reflexivity. Qed.

Lemma lstrip_head p s :
  (forall c, Str.head s = Some c -> p c = false) -> Str.lstrip p s = s.
Proof. destruct s as [|c s]; simpl; [done|]. intros H. by rewrite (H c). Qed.

Lemma rstrip_last p s :
  (forall c, Str.last s = Some c -> p c = false) -> Str.rstrip p s = s.
Proof.
  induction s as [|c s IH]; [done|]. intros H.
  destruct s as [|d s].
  - simpl. by rewrite (H c).
  - change (Str.rstrip p (String c (String d s)))
      with (match Str.rstrip p (String d s) with
            | EmptyString => if p c then EmptyString else String c EmptyString
            | String a u => String c (String a u)
            end).
    rewrite IH by exact H. done.
Qed.

Lemma strip_trimmed p s :
  (forall c, Str.head s = Some c -> p c = false) ->
  (forall c, Str.last s = Some c -> p c = false) ->
  Str.strip p s = s.
Proof. intros Hh Hl. unfold Str.strip. by rewrite lstrip_head, rstrip_last. Qed.

Lemma strip_head p s c : Str.head (Str.strip p s) = Some c -> p c = false.
Proof.
  unfold Str.strip. intros H.
  by apply SanitizeFacts.head_rstrip, SanitizeFacts.head_lstrip in H.
Qed.

Lemma strip_last p s c : Str.last (Str.strip p s) = Some c -> p c = false.
Proof. unfold Str.strip. apply SanitizeFacts.last_rstrip. Qed.

Lemma head_map f s : Str.head (Str.map f s) = f <$> Str.head s.
Proof. by destruct s. Qed.

Lemma last_map f s : Str.last (Str.map f s) = f <$> Str.last s.
Proof.
  induction s as [|c s IH]; [done|]. destruct s as [|d s]; [done|].
  exact IH.
Qed.

Lemma head_filter_out p s c :
  Str.head s = Some c -> p c = false -> Str.head (Str.filter_out p s) = Some c.
Proof. destruct s as [|d s]; simpl; [done|]. intros [= ->] ->. done. Qed.

Lemma last_filter_out p s c :
  Str.last s = Some c -> p c = false -> Str.last (Str.filter_out p s) = Some c.
Proof.
  induction s as [|d s IH]; [done|]. destruct s as [|d' s].
  - simpl. intros [= ->] ->. done.
  - intros Hl Hc. specialize (IH Hl Hc).
    cbn [Str.filter_out] in IH |- *. destruct (p d); [exact IH|].
    destruct (p d'); [|exact IH].
    destruct (Str.filter_out p s) eqn:Hf; [simpl in IH; done|]. exact IH.
Qed.

Lemma head_filter_out_inv p s c :
  Str.head (Str.filter_out p s) = Some c -> p c = false.
Proof.
  induction s as [|d s IH]; simpl; [done|].
  destruct (p d) eqn:Hd; [exact IH|]. simpl. by intros [= <-].
Qed.

Lemma map_lower_fixed s : Str.map Char.lower (Str.map Char.lower s) = Str.map Char.lower s.
Proof. induction s as [|c s IH]; simpl; [done|]. by rewrite lower_idem, IH. Qed.

Lemma map_filter_out_lower s :
  Str.map Char.lower (Str.filter_out (Char.eqb " ") (Str.map Char.lower s))
  = Str.filter_out (Char.eqb " ") (Str.map Char.lower s).
Proof.
  induction s as [|c s IH]; [done|]. cbn [Str.map Str.filter_out].
  destruct (Char.eqb " " (Char.lower c)); [exact IH|].
  cbn [Str.map]. by rewrite lower_idem, IH.
Qed.

Lemma filter_out_idem p s :
  Str.filter_out p (Str.filter_out p s) = Str.filter_out p s.
Proof. apply StrFacts.filter_out_id, SanitizeFacts.any_filter_out. Qed.

(** Whatever was trimmed and lowered once stays as it is when trimmed
    again. *)
Lemma strip_lowered s :
  Str.strip Char.isspace (Str.map Char.lower (Str.strip Char.isspace s))
  = Str.map Char.lower (Str.strip Char.isspace s).
Proof.
  apply strip_trimmed; intros c.
  - rewrite head_map. destruct (Str.head _) as [d|] eqn:Hd; [|done].
    intros [= <-]. rewrite isspace_lower. by apply strip_head in Hd.
  - rewrite last_map. destruct (Str.last _) as [d|] eqn:Hd; [|done].
    intros [= <-]. rewrite isspace_lower. by apply strip_last in Hd.
Qed.

Lemma normalize_lowered s :
  normalize (Str.map Char.lower (Str.strip Char.isspace s)) = normalize s.
Proof. unfold normalize. by rewrite strip_lowered, map_lower_fixed. Qed.

Lemma space_isspace c : Char.eqb " " c = true -> Char.isspace c = true.
Proof. unfold Char.eqb. intros <-%Ascii.eqb_eq. done. Qed.

Lemma normalize_idem s : normalize (normalize s) = normalize s.
Proof.
  unfold normalize at 1.
  assert (Str.strip Char.isspace (normalize s) = normalize s) as ->.
  { apply strip_trimmed; intros c Hc.
    - unfold normalize in Hc.
      destruct (Str.head (Str.map Char.lower (Str.strip Char.isspace s)))
        as [d|] eqn:Hd.
      + assert (Char.isspace d = false) as Hsp.
        { rewrite head_map in Hd.
          destruct (Str.head (Str.strip _ s)) as [d0|] eqn:Hd0; [|done].
          injection Hd as <-. rewrite isspace_lower. by apply strip_head in Hd0. }
        rewrite (head_filter_out _ _ d Hd) in Hc
          by by apply CharFacts.isspace_space.
        by injection Hc as <-.
      + destruct (Str.map _ _); [done | done].
    - unfold normalize in Hc.
      destruct (Str.last (Str.map Char.lower (Str.strip Char.isspace s)))
        as [d|] eqn:Hd.
      + assert (Char.isspace d = false) as Hsp.
        { rewrite last_map in Hd.
          destruct (Str.last (Str.strip _ s)) as [d0|] eqn:Hd0; [|done].
          injection Hd as <-. rewrite isspace_lower. by apply strip_last in Hd0. }
        rewrite (last_filter_out _ _ d Hd) in Hc
          by by apply CharFacts.isspace_space.
        by injection Hc as <-.
      + destruct (Str.map _ _) as [|x y]; [done|].
        exfalso. clear -Hd. revert x Hd.
        induction y as [|z y IH]; intros x Hd; [done|]. by apply (IH z). }
  unfold normalize. by rewrite map_filter_out_lower, filter_out_idem.
Qed.

End SelectFacts.

(** X1. A single number [n] selects the index [n - 1] exactly when
    [1 <= n <= total]; zero, numbers beyond the total and negative numbers
    are errors. *)
Theorem single_index_form (n total : Z) :
  parse_range_input (py_str n) total =
  if decide (1 <= n /\ n <= total) then ([n - 1], None)
  else ([], Some "Invalid selection format."%string).
Proof.
  destruct (Z.lt_ge_cases n 0) as [Hn|Hn].
  - destruct (RangeFacts.py_str_neg_digits n Hn) as (t & Heq & Ht).
    rewrite Heq.
    rewrite RangeFacts.parse_dash_branch; [| |by right|done].
    + cbn [Str.split Char.eqb Ascii.eqb Bool.eqb andb fmap list_fmap].
      change (py_int EmptyString) with (@None Z).
      destruct (decide _) as [?|_]; [lia|]. reflexivity.
    + rewrite <- Heq. apply RangeFacts.py_str_plain.
  - destruct (IntFacts.py_str_digits n Hn) as (c & t & Heq & Hc & Ht).
    pose proof (IntFacts.py_int_py_str n Hn) as Hint.
    rewrite Heq in Hint |- *.
    rewrite (IntFacts.py_int_digit_string c t Hc Ht) in Hint.
    rewrite SelectFacts.parse_digit_string, Hint by done.
    destruct (decide _) as [Hok|Hno].
    + replace ((1 <=? n) && (n <=? total)) with true; [done|].
      symmetry. rewrite andb_true_iff, !Z.leb_le. lia.
    + replace ((1 <=? n) && (n <=? total)) with false; [done|].
      symmetry. apply not_true_iff_false. rewrite andb_true_iff, !Z.leb_le. lia.
Qed.

(** X2. An error never comes with indices: whenever the second component
    is not [None], it is the one message of the function and the list is
    empty. *)
Theorem parse_error_has_no_indices (user_input : string) (total : Z)
    (indices : list Z) (error : string) :
  parse_range_input user_input total = (indices, Some error) ->
  indices = [] /\ error = "Invalid selection format."%string.
Proof.
  unfold parse_range_input, invalid_selection. intros H.
  repeat match type of H with
         | context [if ?b then _ else _] => destruct b eqn:?
         | context [match ?x with _ => _ end] => destruct x eqn:?
         end;
    by simplify_eq.
Qed.

Lemma parse_error_has_no_indices_witness :
  ([] : list Z) = [] /\ "Invalid selection format."%string = "Invalid selection format."%string.
Proof.
  apply (parse_error_has_no_indices "7-3" 9 [] "Invalid selection format.").
  vm_compute. reflexivity.
Defined.

(** X3. A successful selection is one block of consecutive indices
    inside [0, total), so no episode is selected twice. *)
Theorem parse_selects_a_block (user_input : string) (total : Z)
    (indices : list Z) :
  parse_range_input user_input total = (indices, None) ->
  exists lo hi,
    indices = seqZ lo (hi - lo) /\ 0 <= lo /\ hi <= total /\ NoDup indices.
Proof.
  unfold parse_range_input, invalid_selection, py_range. intros H.
  repeat match type of H with
         | context [if ?b then _ else _] => destruct b eqn:?
         | context [match ?x with _ => _ end] => destruct x eqn:?
         end;
    simplify_eq;
    repeat match goal with
           | Hb : _ && _ = true |- _ => apply andb_true_iff in Hb as [? ?]
           end;
    try (eexists _, _; split; [reflexivity|];
         split; [lia|]; split; [lia|]; apply NoDup_seqZ).
  match goal with |- context [[?i - 1]] => exists (i - 1), i end.
  split; [|split; [lia|split; [lia|apply NoDup_singleton]]].
  replace (_ - (_ - 1)) with 1 by lia. reflexivity.
Qed.

Lemma parse_selects_a_block_witness :
  exists lo hi,
    [3; 4; 5; 6] = seqZ lo (hi - lo) /\ 0 <= lo /\ hi <= 7 /\ NoDup [3; 4; 5; 6 : Z].
Proof.
  apply (parse_selects_a_block "L4" 7 [3; 4; 5; 6]). vm_compute. reflexivity.
Defined.

(** X4. Normalization is idempotent, and trimming and lowering the
    line before the call, as [main] does, changes nothing: the parser
    answers the same for the line as typed. *)
Theorem parse_ignores_pre_normalization (user_input : string) (total : Z) :
  normalize (normalize user_input) = normalize user_input
  /\ parse_range_input (normalize user_input) total
     = parse_range_input user_input total
  /\ parse_range_input (Str.map Char.lower (Str.strip Char.isspace user_input)) total
     = parse_range_input user_input total.
Proof.
  split; [apply SelectFacts.normalize_idem|].
  unfold parse_range_input.
  by rewrite SelectFacts.normalize_idem, SelectFacts.normalize_lowered.
Qed.

(** X5. An empty line, and a line of white space only, is an error. *)
Theorem blank_selection_is_error (user_input : string) (total : Z) :
  Str.all Char.isspace user_input = true ->
  parse_range_input user_input total
  = ([], Some "Invalid selection format."%string).
Proof.
  intros H. unfold parse_range_input.
  assert (normalize user_input = EmptyString) as ->; [|reflexivity].
  unfold normalize, Str.strip.
  assert (Str.lstrip Char.isspace user_input = EmptyString) as ->; [|reflexivity].
  induction user_input as [|c s IH]; [done|].
  simpl in H |- *. apply andb_true_iff in H as [-> Hs]. auto.
Qed.

Lemma blank_selection_is_error_witness :
  parse_range_input "   " 4 = ([], Some "Invalid selection format."%string).
Proof. apply blank_selection_is_error. vm_compute. reflexivity. Defined.

Module PrefixFacts.

Lemma take_digits_app ds junk :
  Str.all Char.isdigit ds = true ->
  (forall c, Str.head junk = Some c -> Char.isdigit c = false) ->
  take_digits (ds +:+ junk) = ds.
Proof.
  intros Hds Hjunk. induction ds as [|c ds IH].
  - destruct junk as [|c junk]; [done|]. simpl. by rewrite (Hjunk c).
  - change (String c ds +:+ junk) with (String c (ds +:+ junk)).
    simpl in Hds |- *. apply andb_true_iff in Hds as [-> Hds]. by rewrite IH.
Qed.

Lemma search_after_letter (letter : ascii) ds junk :
  ds <> EmptyString -> Str.all Char.isdigit ds = true ->
  (forall c, Str.head junk = Some c -> Char.isdigit c = false) ->
  re_search_digits letter (String letter (ds +:+ junk)) = Some ds.
Proof.
  intros Hne Hds Hjunk. cbn [re_search_digits].
  rewrite take_digits_app by done. destruct ds as [|c ds]; [done|].
  unfold Char.eqb. by rewrite Ascii.eqb_refl.
Qed.

End PrefixFacts.

(** X6. After [f] or [l] and its digits, the rest of the line is not
    looked at: whatever follows the digits without starting with a digit
    (and is left alone by normalization), the answer is the answer for
    the letter and the digits alone, selection or error. *)
Theorem text_after_prefix_is_ignored (digits junk : string) (total : Z) :
  digits <> EmptyString ->
  Str.all Char.isdigit digits = true ->
  Str.all plain junk = true ->
  (forall c, Str.head junk = Some c -> Char.isdigit c = false) ->
  parse_range_input ("f" +:+ digits +:+ junk) total
  = parse_range_input ("f" +:+ digits) total
  /\ parse_range_input ("l" +:+ digits +:+ junk) total
     = parse_range_input ("l" +:+ digits) total.
Proof.
  intros Hne Hds Hplain Hjunk.
  assert (Str.all plain digits = true) as Hpd by by apply ParseFacts.digits_plain.
  assert (Str.all plain (digits +:+ junk) = true) as Hall
    by by rewrite StrFacts.all_app, Hplain, Hpd.
  assert (forall letter : ascii,
            re_search_digits letter (String letter digits) = Some digits) as Halone.
  { intros letter.
    pose proof (PrefixFacts.search_after_letter letter digits EmptyString Hne Hds)
      as Hsearch.
    assert (digits +:+ EmptyString = digits) as Hnil.
    { clear. induction digits as [|c ds IH]; [done|].
      change (String c ds +:+ EmptyString) with (String c (ds +:+ EmptyString)).
      by rewrite IH. }
    rewrite Hnil in Hsearch. by apply Hsearch. }
  change ("f" +:+ digits +:+ junk) with (String "f" (digits +:+ junk)).
  change ("l" +:+ digits +:+ junk) with (String "l" (digits +:+ junk)).
  change ("f" +:+ digits) with (String "f" digits).
  change ("l" +:+ digits) with (String "l" digits).
  unfold parse_range_input.
  rewrite !ParseFacts.normalize_id by (simpl; by rewrite ?Hall, ?Hpd).
  rewrite !PrefixFacts.search_after_letter by done.
  rewrite !Halone.
  assert (forall letter : ascii, (letter = "f" \/ letter = "l")%char ->
            String.eqb (String letter (digits +:+ junk)) "all"
            = String.eqb (String letter digits) "all") as Hall3.
  { intros letter [-> | ->]; reflexivity. }
  rewrite !Hall3 by auto. done.
Qed.

Lemma text_after_prefix_is_ignored_witness :
  parse_range_input ("f" +:+ "2" +:+ "-9,oops") 6 = parse_range_input ("f" +:+ "2") 6
  /\ parse_range_input ("l" +:+ "2" +:+ "-9,oops") 6
     = parse_range_input ("l" +:+ "2") 6.
Proof.
  apply (text_after_prefix_is_ignored "2" "-9,oops" 6).
  - discriminate.
  - reflexivity.
  - vm_compute. reflexivity.
  - intros c Hc. injection Hc as <-. vm_compute. reflexivity.
Defined.

(** ** More on the sanitizer and the file names *)

Module NameFacts.

Lemma collapse_from_id cls rep b s :
  Str.any cls s = false -> Str.collapse_from cls rep b s = s.
Proof.
  revert b. induction s as [|c s IH]; intros b; simpl; [done|].
  intros [-> Hs]%orb_false_iff. by rewrite IH.
Qed.

Lemma all_filter_out_rest (p q : ascii -> bool) s :
  Str.all (fun c => p c || q c) s = true -> Str.all q (Str.filter_out p s) = true.
Proof.
  induction s as [|c s IH]; simpl; [done|].
  intros [Hc Hs]%andb_true_iff. destruct (p c) eqn:Hp; [auto|].
  simpl in Hc |- *. by rewrite Hc, IH.
Qed.

Lemma all_collapse_from (cls q : ascii -> bool) rep b s :
  q rep = true -> Str.all (fun c => cls c || q c) s = true ->
  Str.all q (Str.collapse_from cls rep b s) = true.
Proof.
  intros Hrep. revert b. induction s as [|c s IH]; intros b; simpl; [done|].
  intros [Hc Hs]%andb_true_iff.
  destruct (cls c) eqn:Hcls, b; simpl; rewrite ?Hrep; simpl; auto.
  - simpl in Hc. rewrite Hc. simpl. auto.
  - simpl in Hc. rewrite Hc. simpl. auto.
Qed.

Lemma lstrip_all p s : Str.all p s = true -> Str.lstrip p s = EmptyString.
Proof.
  induction s as [|c s IH]; simpl; [done|].
  intros [-> Hs]%andb_true_iff. auto.
Qed.

Lemma last_app s t : t <> EmptyString -> Str.last (s +:+ t) = Str.last t.
Proof.
  intros Ht. induction s as [|c s IH]; [done|].
  change (String c s +:+ t) with (String c (s +:+ t)).
  destruct (s +:+ t) as [|d u] eqn:Heq.
  - destruct s; [simpl in Heq; done | done].
  - exact IH.
Qed.

Lemma any_weaken (p q : ascii -> bool) s :
  (forall c, q c = true -> p c = true) ->
  Str.any p s = false -> Str.any q s = false.
Proof.
  intros Hqp. induction s as [|c s IH]; simpl; [done|].
  intros [Hc Hs]%orb_false_iff. rewrite (IH Hs), orb_false_r.
  destruct (q c) eqn:Hq; [|done]. by rewrite (Hqp c Hq) in Hc.
Qed.

Lemma any_app p s t : Str.any p (s +:+ t) = Str.any p s || Str.any p t.
Proof. induction s as [|c s IH]; simpl; [done|]. by rewrite IH, orb_assoc. Qed.

Lemma sanitize_no_illegal s : Str.any Char.illegal (sanitize_filename s) = false.
Proof.
  unfold sanitize_filename, Str.strip.
  apply SanitizeFacts.any_take, SanitizeFacts.any_rstrip, SanitizeFacts.any_lstrip.
  apply SanitizeFacts.any_collapse_kept; [done|].
  apply SanitizeFacts.any_filter_out.
Qed.

End NameFacts.

(** X7. A name that is already clean is left as it is: without illegal
    characters, white space and hyphens, without an underscore at either
    end and of at most 200 characters. *)
Theorem sanitize_keeps_clean_names (name : string) :
  Str.any Char.illegal name = false ->
  Str.any Char.sep_class name = false ->
  Str.head name <> Some "_"%char ->
  Str.last name <> Some "_"%char ->
  (String.length name <= 200)%nat ->
  sanitize_filename name = name.
Proof.
  intros Hill Hsep Hhead Hlast Hlen. unfold sanitize_filename, Str.collapse.
  rewrite StrFacts.filter_out_id, NameFacts.collapse_from_id by done.
  rewrite SelectFacts.strip_trimmed, SanitizeFacts.take_all; [done | done | |].
  - intros c Hc. unfold is_underscore, Char.eqb.
    destruct (Ascii.eqb_spec c "_") as [->|]; [done | done].
  - intros c Hc. unfold is_underscore, Char.eqb.
    destruct (Ascii.eqb_spec c "_") as [->|]; [done | done].
Qed.

Lemma sanitize_keeps_clean_names_witness :
  sanitize_filename "My_Show_Ep_1" = "My_Show_Ep_1"%string.
Proof.
  apply sanitize_keeps_clean_names.
  - vm_compute. reflexivity.
  - vm_compute. reflexivity.
  - discriminate.
  - discriminate.
  - vm_compute. lia.
Defined.

(** X8. The two paths [download_episode] writes to hold no directory
    separator, whatever the title, so both stay in the working directory;
    and the temporary path of an episode is never the final path of any
    episode. *)
Theorem working_paths_stay_local (name other : string) :
  Str.any is_path_separator (final_of (sanitize_filename name)) = false
  /\ Str.any is_path_separator (temp_of (sanitize_filename name)) = false
  /\ temp_of (sanitize_filename name) <> final_of (sanitize_filename other).
Proof.
  assert (Str.any is_path_separator (sanitize_filename name) = false) as Hsafe.
  { apply (NameFacts.any_weaken Char.illegal); [|apply NameFacts.sanitize_no_illegal].
    intros c. unfold is_path_separator, Char.illegal.
    intros [->| ->]%orb_true_iff; [|done].
    by rewrite !orb_true_r. }
  unfold final_of, temp_of. rewrite !NameFacts.any_app, Hsafe.
  split; [done|]. split; [done|]. intros Heq.
  apply (f_equal Str.last) in Heq. by rewrite !NameFacts.last_app in Heq.
Qed.

(** X9. A title made only of illegal characters, white space, hyphens
    and underscores gives the empty name, and so the final path [.opus]. *)
Theorem sanitize_of_separators_is_empty (name : string) :
  Str.all (fun c => Char.illegal c || (Char.sep_class c || is_underscore c)) name = true ->
  sanitize_filename name = EmptyString
  /\ final_of (sanitize_filename name) = ".opus"%string.
Proof.
  intros H.
  assert (sanitize_filename name = EmptyString) as ->; [|done].
  unfold sanitize_filename, Str.strip, Str.collapse.
  rewrite NameFacts.lstrip_all; [done|].
  apply NameFacts.all_collapse_from; [done|].
  by apply NameFacts.all_filter_out_rest.
Qed.

Lemma sanitize_of_separators_is_empty_witness :
  sanitize_filename "?? - __ *" = EmptyString
  /\ final_of (sanitize_filename "?? - __ *") = ".opus"%string.
Proof. apply sanitize_of_separators_is_empty. vm_compute. reflexivity. Defined.

(** ** More on the resolver *)

Module EnclosureFacts.

Lemma first_enclosure_Some test encs x :
  first_enclosure test encs = Some x -> x ∈ encs /\ test (mime_of x) = true.
Proof.
  induction encs as [|y encs IH]; simpl; [done|].
  destruct (test (mime_of y)) eqn:Hy.
  - intros [= <-]. split; [left | done].
  - intros H. destruct (IH H). split; [by right | done].
Qed.

Lemma first_enclosure_None test encs :
  first_enclosure test encs = None ->
  Forall (fun y => test (mime_of y) = false) encs.
Proof.
  induction encs as [|y encs IH]; simpl; [constructor|].
  destruct (test (mime_of y)) eqn:Hy; [done|]. intros H. constructor; auto.
Qed.

End EnclosureFacts.

(** X10. A url that the resolver returns is the [href] of an enclosure of
    the entry, of the target family when [is_opus] is true, and of the
    fallback family, with no enclosure of the target family in the entry,
    when it is false. *)
Theorem resolved_url_comes_from_an_enclosure (e : entry) (url : string)
    (is_opus : bool) :
  get_audio_enclosure e = (Some url, is_opus) ->
  exists encs x,
    enclosures e = Some encs /\ x ∈ encs /\ x !! "href"%string = Some url
    /\ if is_opus then is_opus_mime (mime_of x) = true
       else is_mp3_mime (mime_of x) = true
            /\ Forall (fun y => is_opus_mime (mime_of y) = false) encs.
Proof.
  unfold get_audio_enclosure. destruct (enclosures e) as [encs|]; [|done].
  destruct (first_enclosure is_opus_mime encs) as [x|] eqn:Hopus.
  - intros [= Hhref <-]. apply EnclosureFacts.first_enclosure_Some in Hopus as [? ?].
    by exists encs, x.
  - destruct (first_enclosure is_mp3_mime encs) as [x|] eqn:Hmp3; [|done].
    intros [= Hhref <-]. apply EnclosureFacts.first_enclosure_Some in Hmp3 as [? ?].
    apply EnclosureFacts.first_enclosure_None in Hopus.
    by exists encs, x.
Qed.

Lemma resolved_url_comes_from_an_enclosure_witness :
  exists encs x,
    enclosures opus_entry = Some encs /\ x ∈ encs
    /\ x !! "href"%string = Some "http://h/2.opus"%string
    /\ is_opus_mime (mime_of x) = true.
Proof.
  apply (resolved_url_comes_from_an_enclosure opus_entry "http://h/2.opus" true).
  vm_compute. reflexivity.
Defined.

(** X11. The resolver answers [is_opus = true] exactly when some
    enclosure of the entry has a mime type of the target family, with or
    without an [href]. *)
Theorem is_opus_iff_some_opus_enclosure (e : entry) :
  (get_audio_enclosure e).2 = true <->
  exists encs x,
    enclosures e = Some encs /\ x ∈ encs /\ is_opus_mime (mime_of x) = true.
Proof.
  unfold get_audio_enclosure. split.
  - destruct (enclosures e) as [encs|]; [|done].
    destruct (first_enclosure is_opus_mime encs) as [x|] eqn:Hopus.
    + intros _. apply EnclosureFacts.first_enclosure_Some in Hopus as [? ?].
      by exists encs, x.
    + by destruct (first_enclosure is_mp3_mime encs).
  - intros (encs & x & -> & Hin & Hx).
    destruct (first_enclosure is_opus_mime encs) as [y|] eqn:Hopus; [done|].
    apply EnclosureFacts.first_enclosure_None in Hopus.
    rewrite Forall_forall in Hopus. by rewrite (Hopus x Hin) in Hx.
Qed.

Lemma is_opus_iff_some_opus_enclosure_witness :
  (get_audio_enclosure opus_entry_no_href).2 = true.
Proof.
  apply is_opus_iff_some_opus_enclosure.
  exists [{[ "type"%string := "audio/opus"%string ]}; enc "audio/mpeg" "http://h/3.mp3"],
         {[ "type"%string := "audio/opus"%string ]}.
  split; [reflexivity|]. split; [left|]. vm_compute. reflexivity.
Defined.

(** ** More on the acquisition *)

Module AcquireFacts.

Lemma resolve_cases e :
  has_url (get_audio_enclosure e).1 = false
  \/ exists url native,
       get_audio_enclosure e = (Some url, native) /\ url <> EmptyString
       /\ has_url (get_audio_enclosure e).1 = true.
Proof.
  destruct (get_audio_enclosure e) as [[[|c u]|] native]; simpl; auto.
  right. by exists (String c u), native.
Qed.

Lemma final_cases (fs : filesystem) path :
  is_Some (fs !! path) \/ fs !! path = None.
Proof. destruct (fs !! path); eauto. Qed.

End AcquireFacts.



(** X13. A success reported for an opus source is true to the disk:
    when the final file was not there before and [download_episode]
    reports success, the server was asked once, its whole body arrived,
    the final file holds exactly the bytes of that body, and ffmpeg was
    not run. *)
Theorem native_success_means_body_on_disk http ffmpeg (e : entry) url
    (fs : filesystem) (path : string) :
  get_audio_enclosure e = (Some url, true) ->
  url <> EmptyString ->
  fs !! final_of (sanitize_filename (title e)) = None ->
  let run := download_episode http ffmpeg e (State fs []) in
  outcome_of (trace run.2) = Some (Success path) ->
  path = final_of (sanitize_filename (title e))
  /\ exists data,
       transfer_of (http url) = Completes data
       /\ files run.2 = <[path := data]> fs
       /\ network_calls (trace run.2) = [url]
       /\ forall input output, RunFFmpeg input output ∉ trace run.2.
Proof.
  intros Hres Hurl Hfinal run. unfold run.
  rewrite (RunFacts.download_run http ffmpeg e url true fs Hres Hurl Hfinal).
  cbn zeta. destruct (transfer_of (http url)) as [data|ex partial]; [|done].
  intros [= <-]. split; [done|]. exists data.
  split; [done|]. split; [done|]. split; [done|]. intros input output Hin.
  repeat (apply elem_of_cons in Hin as [Hin|Hin]; [discriminate Hin|]).
  by apply elem_of_nil in Hin.
Qed.

Lemma native_success_means_body_on_disk_witness :
  "Ep_2.opus"%string = final_of (sanitize_filename (title opus_entry))
  /\ exists data,
       transfer_of (http_ok "http://h/2.opus") = Completes data
       /\ files (download_episode http_ok ffmpeg_fails opus_entry (State ∅ [])).2
          = <["Ep_2.opus"%string := data]> ∅
       /\ network_calls (trace (download_episode http_ok ffmpeg_fails opus_entry
                                  (State ∅ [])).2)
          = ["http://h/2.opus"%string]
       /\ forall input output,
            RunFFmpeg input output
            ∉ trace (download_episode http_ok ffmpeg_fails opus_entry (State ∅ [])).2.
Proof.
  apply (native_success_means_body_on_disk http_ok ffmpeg_fails opus_entry
           "http://h/2.opus" ∅ "Ep_2.opus").
  - vm_compute. reflexivity.
  - discriminate.
  - vm_compute. reflexivity.
  - vm_compute. reflexivity.
Defined.

(** X14. Once the working file of an opus source has been opened, a
    second run over the same entry is a skip, whatever the server and the
    encoder would do then: nothing is requested and the files stay.  This
    holds after a complete download, and also after a transfer that broke
    in the middle, whose partial file is then taken for a download. *)
Theorem opus_file_is_never_fetched_again http ffmpeg http' ffmpeg' (e : entry)
    url (fs : filesystem) :
  get_audio_enclosure e = (Some url, true) ->
  url <> EmptyString ->
  fs !! final_of (sanitize_filename (title e)) = None ->
  (exists data, transfer_of (http url) = Completes data)
  \/ (exists ex written, transfer_of (http url) = Fails ex (Some written)) ->
  let final := final_of (sanitize_filename (title e)) in
  let fs1 := files (download_episode http ffmpeg e (State fs [])).2 in
  is_Some (fs1 !! final)
  /\ download_episode http' ffmpeg' e (State fs1 [])
     = (Ok tt, State fs1 [Print (MsgAlreadyExists final)]).
Proof.
  intros Hres Hurl Hfinal Hopened final fs1.
  assert (is_Some (fs1 !! final)) as Hex.
  { unfold fs1.
    rewrite (RunFacts.download_run http ffmpeg e url true fs Hres Hurl Hfinal).
    cbn zeta.
    destruct Hopened as [[data ->]|(ex & written & ->)]; simpl;
      rewrite lookup_insert_eq; eauto. }
  split; [done|].
  rewrite RunFacts.download_existing; [done | by rewrite Hres; destruct url | done].
Qed.

Lemma opus_file_is_never_fetched_again_witness :
  is_Some (files (download_episode http_broken ffmpeg_works opus_entry (State ∅ [])).2
             !! final_of (sanitize_filename (title opus_entry)))
  /\ download_episode http_ok ffmpeg_works opus_entry
       (State (files (download_episode http_broken ffmpeg_works opus_entry
                        (State ∅ [])).2) [])
     = (Ok tt,
        State (files (download_episode http_broken ffmpeg_works opus_entry
                        (State ∅ [])).2)
              [Print (MsgAlreadyExists (final_of (sanitize_filename (title opus_entry))))]).
Proof.
  apply (opus_file_is_never_fetched_again http_broken ffmpeg_works http_ok
           ffmpeg_works opus_entry "http://h/2.opus" ∅).
  - vm_compute. reflexivity.
  - discriminate.
  - vm_compute. reflexivity.
  - right. exists ChunkedEncodingError, [x41; x42]. vm_compute. reflexivity.
Defined.

(** X15. After a failed transfer of a source that is not opus, neither
    the temporary nor the final file is there, and the next run over the
    entry asks the server again. *)
Theorem failed_mp3_download_is_retried http ffmpeg http' ffmpeg' (e : entry)
    url (fs : filesystem) ex partial :
  get_audio_enclosure e = (Some url, false) ->
  url <> EmptyString ->
  fs !! final_of (sanitize_filename (title e)) = None ->
  transfer_of (http url) = Fails ex partial ->
  let fs1 := files (download_episode http ffmpeg e (State fs [])).2 in
  fs1 !! final_of (sanitize_filename (title e)) = None
  /\ fs1 !! temp_of (sanitize_filename (title e)) = None
  /\ network_calls (trace (download_episode http' ffmpeg' e (State fs1 [])).2) = [url].
Proof.
  intros Hres Hurl Hfinal Hfail fs1.
  pose proof (RunFacts.temp_not_final (sanitize_filename (title e))) as Hne.
  assert (fs1 = delete (temp_of (sanitize_filename (title e))) fs) as Hfs1.
  { unfold fs1.
    rewrite (RunFacts.download_run http ffmpeg e url false fs Hres Hurl Hfinal).
    cbn zeta. by rewrite Hfail. }
  assert (fs1 !! final_of (sanitize_filename (title e)) = None) as Hfinal1
    by by rewrite Hfs1, lookup_delete_ne.
  split; [done|]. split; [rewrite Hfs1; apply lookup_delete_eq|].
  rewrite (RunFacts.download_run http' ffmpeg' e url false fs1 Hres Hurl Hfinal1).
  cbn zeta. destruct (transfer_of (http' url)) as [data|ex' partial']; [|done].
  destruct (ffmpeg' _ _ _) as [| |code after]; [done | done |].
  by destruct (code =? 0).
Qed.

Lemma failed_mp3_download_is_retried_witness :
  files (download_episode http_down ffmpeg_works mp3_entry (State ∅ [])).2
    !! final_of (sanitize_filename (title mp3_entry)) = None
  /\ files (download_episode http_down ffmpeg_works mp3_entry (State ∅ [])).2
       !! temp_of (sanitize_filename (title mp3_entry)) = None
  /\ network_calls
       (trace (download_episode http_ok ffmpeg_works mp3_entry
                 (State (files (download_episode http_down ffmpeg_works mp3_entry
                                  (State ∅ [])).2) [])).2)
     = ["http://h/1.mp3"%string].
Proof.
  apply (failed_mp3_download_is_retried http_down ffmpeg_works http_ok ffmpeg_works
           mp3_entry "http://h/1.mp3" ∅ ConnectionError None).
  - vm_compute. reflexivity.
  - discriminate.
  - vm_compute. reflexivity.
  - vm_compute. reflexivity.
Defined.

(** X16. [download_episode] writes and deletes at its temporary and its
    final path only: every other file that ffmpeg leaves alone is after the
    call what it was before. *)
Theorem download_touches_only_its_paths http ffmpeg (e : entry)
    (fs : filesystem) (path : string) :
  path <> final_of (sanitize_filename (title e)) ->
  path <> temp_of (sanitize_filename (title e)) ->
  (forall before code after,
     ffmpeg (temp_of (sanitize_filename (title e)))
            (final_of (sanitize_filename (title e))) before = Exited code after ->
     after !! path = before !! path) ->
  files (download_episode http ffmpeg e (State fs [])).2 !! path = fs !! path.
Proof.
  intros Hfinal Htemp Hffmpeg.
  destruct (AcquireFacts.resolve_cases e) as [Hno|(url & native & Hres & Hurl & Hyes)].
  - by rewrite RunFacts.download_no_url.
  - destruct (AcquireFacts.final_cases fs (final_of (sanitize_filename (title e))))
      as [Hex|Hnone].
    + by rewrite RunFacts.download_existing.
    + rewrite (RunFacts.download_run http ffmpeg e url native fs Hres Hurl Hnone).
      cbn zeta.
      destruct (transfer_of (http url)) as [data|ex partial].
      * destruct native; [simpl; by rewrite lookup_insert_ne|].
        destruct (ffmpeg _ _ _) as [| |code after] eqn:Hrun; simpl.
        -- by rewrite lookup_delete_ne.
        -- by rewrite lookup_delete_ne.
        -- rewrite lookup_delete_ne by done.
           rewrite (Hffmpeg _ _ _ Hrun). by rewrite lookup_insert_ne.
      * destruct native; simpl.
        -- destruct partial; [by rewrite lookup_insert_ne | done].
        -- by rewrite lookup_delete_ne.
Qed.

Lemma download_touches_only_its_paths_witness :
  files (download_episode http_ok ffmpeg_works mp3_entry
           (State {[ "notes.txt"%string := [x41] ]} [])).2 !! "notes.txt"%string
  = ({[ "notes.txt"%string := [x41] ]} : filesystem) !! "notes.txt"%string.
Proof.
  apply (download_touches_only_its_paths http_ok ffmpeg_works mp3_entry).
  - vm_compute. discriminate.
  - vm_compute. discriminate.
  - intros before code after Hrun. injection Hrun as _ <-.
    apply lookup_insert_ne. vm_compute. discriminate.
Defined.

(** ** More on the encoder *)

Module ConvertFacts.

(** [convert_to_opus] run on what the ffmpeg process does. *)
Lemma convert_run ffmpeg (input output : string) (fs : filesystem)
    (tr : list event) :
  convert_to_opus ffmpeg input output (State fs tr)
  = let start := tr ++ [Print (MsgTranscoding input); RunFFmpeg input output] in
    match ffmpeg input output fs with
    | Exited code after =>
        if code =? 0 then (Ok true, State after start)
        else (Ok false, State after (start ++ [Print MsgTranscodeError]))
    | NotFound => (Ok false, State fs (start ++ [Print MsgFFmpegNotFound]))
    | CannotRun => (Raise OSError, State fs start)
    end.
Proof.
  unfold convert_to_opus, subprocess_run, ffmpeg_process, print, emit,
    try_except, raise, mbind, M_bind, mret, M_ret.
  cbn [files trace].
  destruct (ffmpeg input output fs) as [| |code after]; cbn [fst snd files trace];
    rewrite <- ?(assoc_L (++)); cbn [app]; try done.
  destruct (code =? 0); cbn [fst snd files trace];
    rewrite <- ?(assoc_L (++)); cbn [app]; done.
Qed.

End ConvertFacts.

(** X17. [convert_to_opus] answers by what ffmpeg did.  It returns
    [True] exactly when ffmpeg exits with zero.  It returns [False]
    exactly when there is no executable or ffmpeg exits with another
    code, and it has then printed the advice to install FFmpeg, or the
    transcoding error, as its last message.  Neither of these two
    failures leaves it as an exception; a process that cannot be started
    for another reason does, as the [OSError] it is.  The process is run
    once, and the files are what it left, untouched when it did not
    start. *)
Theorem convert_to_opus_reports_by_exit_code ffmpeg (input output : string)
    (fs : filesystem) :
  let run := convert_to_opus ffmpeg input output (State fs []) in
  (run.1 = Ok true <-> exists after, ffmpeg input output fs = Exited 0 after)
  /\ (run.1 = Ok false <->
      ffmpeg input output fs = NotFound
      \/ exists code after, code <> 0 /\ ffmpeg input output fs = Exited code after)
  /\ (run.1 = Raise OSError <-> ffmpeg input output fs = CannotRun)
  /\ (forall e, run.1 = Raise e -> e = OSError)
  /\ (ffmpeg input output fs = NotFound ->
      last (trace run.2) = Some (Print MsgFFmpegNotFound))
  /\ (forall code after,
        ffmpeg input output fs = Exited code after -> code <> 0 ->
        last (trace run.2) = Some (Print MsgTranscodeError))
  /\ files run.2 = match ffmpeg input output fs with
                   | Exited _ after => after
                   | _ => fs
                   end
  /\ network_calls (trace run.2) = []
  /\ omap (fun ev => match ev with
                     | RunFFmpeg i o => Some (i, o)
                     | _ => None
                     end) (trace run.2)
     = [(input, output)].
Proof.
  cbn zeta. rewrite ConvertFacts.convert_run. cbn zeta.
  destruct (ffmpeg input output fs) as [| |code after]; cbn [fst snd files trace app].
  - split; [split; [done | by intros [? ?]]|].
    split; [split; [by left | done]|].
    split; [done|]. split; [done|]. split; [done|]. split; [done|].
    split; [done|]. split; [done|]. done.
  - split; [split; [done | by intros [? ?]]|].
    split; [split; [done | by intros [?|(? & ? & _ & ?)]]|].
    split; [done|]. split; [by intros e [= <-]|]. split; [done|]. split; [done|].
    split; [done|]. split; [done|]. done.
  - destruct (Z.eqb_spec code 0) as [->|Hcode]; cbn [fst snd files trace app].
    + split; [split; [eauto | done]|].
      split; [split; [done | by intros [?|(? & ? & ? & [= <- _])]]|].
      split; [done|]. split; [done|]. split; [done|].
      split; [by intros ? ? [= <- _] ?|].
      split; [done|]. split; [done|]. done.
    + split; [split; [done | by intros [? [= ? _]]]|].
      split; [split; [right; eauto | done]|].
      split; [done|]. split; [done|]. split; [done|]. split; [done|].
      split; [done|]. split; [done|]. done.
Qed.

Lemma convert_to_opus_reports_by_exit_code_witness :
  (convert_to_opus ffmpeg_fails "a.tmp.mp3" "a.opus" (State ∅ [])).1 = Ok false
  /\ last (trace (convert_to_opus ffmpeg_fails "a.tmp.mp3" "a.opus" (State ∅ [])).2)
     = Some (Print MsgTranscodeError).
Proof.
  destruct (convert_to_opus_reports_by_exit_code ffmpeg_fails "a.tmp.mp3" "a.opus" ∅)
    as (_ & [_ Hfalse] & _ & _ & _ & Hlast & _).
  split.
  - apply Hfalse. right. exists 1, ∅. split; [lia | reflexivity].
  - apply (Hlast 1 ∅); [reflexivity | lia].
Defined.

(** ** The episode list *)

Module DisplayFacts.

Lemma digit_value_zero : Char.digit_value "0" = 0.
Proof. reflexivity. Qed.

Lemma replicate_zero_digits m : Str.all Char.isdigit (Str.replicate m "0") = true.
Proof. induction m as [|m IH]; simpl; [done|]. exact IH. Qed.

Lemma int_digits_leading_zeros m s :
  int_digits 0 (Str.replicate m "0" +:+ s) = int_digits 0 s.
Proof.
  induction m as [|m IH]; [done|].
  change (Str.replicate (S m) "0" +:+ s) with (String "0" (Str.replicate m "0" +:+ s)).
  exact IH.
Qed.

Lemma zfill_digits w n :
  0 <= n ->
  exists c t, zfill w (py_str n) = String c t /\ Char.isdigit c = true
              /\ Str.all Char.isdigit t = true
              /\ int_digits 0 (String c t) = Some n.
Proof.
  intros Hn. destruct (IntFacts.py_str_digits n Hn) as (c & t & Heq & Hc & Ht).
  pose proof (IntFacts.py_int_py_str n Hn) as Hint.
  rewrite Heq, (IntFacts.py_int_digit_string c t Hc Ht), <- Heq in Hint.
  assert (Str.all Char.isdigit (zfill w (py_str n)) = true) as Hall.
  { unfold zfill. rewrite StrFacts.all_app, replicate_zero_digits, Heq.
    simpl. by rewrite Hc. }
  assert (int_digits 0 (zfill w (py_str n)) = Some n) as Hval
    by (unfold zfill; by rewrite int_digits_leading_zeros).
  destruct (zfill w (py_str n)) as [|c' t'] eqn:Hz.
  - unfold zfill in Hz. rewrite Heq in Hz.
    destruct (Str.replicate _ _); discriminate Hz.
  - simpl in Hall. apply andb_true_iff in Hall as [? ?]. by exists c', t'.
Qed.

(** The label printed for the entry at index [k] selects [k]. *)
Lemma label_selects k total :
  0 <= k < total ->
  parse_range_input (py_format_03 (k + 1)) total = ([k], None).
Proof.
  intros Hk. unfold py_format_03.
  destruct (Z.ltb_spec (k + 1) 0) as [|_]; [lia|].
  destruct (zfill_digits 3 (k + 1)) as (c & t & -> & Hc & Ht & Hval); [lia|].
  rewrite SelectFacts.parse_digit_string, Hval by done.
  replace ((1 <=? k + 1) && (k + 1 <=? total)) with true
    by (symmetry; rewrite andb_true_iff, !Z.leb_le; lia).
  do 2 f_equal. lia.
Qed.

Lemma print_range_lookup l start i :
  print_range l start !! i
  = (fun ep => EpisodeLine (py_format_03 (start + Z.of_nat i + 1))
                 (title (entry_of ep)) (default "No date"%string (published ep)))
    <$> l !! i.
Proof. unfold print_range. by rewrite list_lookup_imap. Qed.

(** The lines of a slice that starts at [off] carry the numbers of the
    whole list. *)
Lemma print_range_slice (eps l : list episode) (off : nat) x :
  (forall i ep, l !! i = Some ep -> eps !! (off + i)%nat = Some ep) ->
  x ∈ print_range l (Z.of_nat off) ->
  exists k ep,
    eps !! k = Some ep /\ (off <= k < off + length l)%nat /\ x = line_of k ep.
Proof.
  intros Hslice [i Hi]%list_elem_of_lookup.
  rewrite print_range_lookup in Hi.
  destruct (l !! i) as [ep|] eqn:Hep; [|done]. injection Hi as <-.
  exists (off + i)%nat, ep. split; [by apply Hslice|].
  apply lookup_lt_Some in Hep. split; [lia|].
  unfold line_of. do 2 f_equal. lia.
Qed.

(** The label of the listing tells the index. *)
Lemma label_inj (a b : nat) :
  py_format_03 (Z.of_nat a + 1) = py_format_03 (Z.of_nat b + 1) -> a = b.
Proof.
  unfold py_format_03.
  destruct (Z.ltb_spec (Z.of_nat a + 1) 0) as [|_]; [lia|].
  destruct (Z.ltb_spec (Z.of_nat b + 1) 0) as [|_]; [lia|].
  destruct (zfill_digits 3 (Z.of_nat a + 1)) as (c & t & -> & _ & _ & Ha); [lia|].
  destruct (zfill_digits 3 (Z.of_nat b + 1)) as (c' & t' & -> & _ & _ & Hb); [lia|].
  intros Heq. rewrite Heq, Hb in Ha. injection Ha as Ha. lia.
Qed.

Lemma print_range_shows (l : list episode) (off : nat) i ep :
  l !! i = Some ep -> line_of (off + i) ep ∈ print_range l (Z.of_nat off).
Proof.
  intros Hep. apply list_elem_of_lookup. exists i.
  rewrite print_range_lookup, Hep. simpl. unfold line_of. do 3 f_equal. lia.
Qed.

End DisplayFacts.

Module ListingFacts.

(** The episode lines of the listing, with the index each one stands
    for: any index up to ten episodes, one of the first five or of the last
    five beyond. *)
Lemma listing_lines (f : feed) lines x :
  display_episodes (Some f) = (lines, None) ->
  x ∈ lines ->
  (exists k ep, entries f !! k = Some ep
                /\ ((length (entries f) <= 10)%nat \/ (k < 5)%nat
                    \/ (length (entries f) - 5 <= k)%nat)
                /\ x = line_of k ep)
  \/ (exists n, x = HiddenLine n /\ (10 < length (entries f))%nat
                /\ n = Z.of_nat (length (entries f)) - 10)
  \/ x = Rule \/ (exists name, x = PodcastTitle name)
  \/ (exists n, x = TotalAvailable n) \/ x = Blank.
Proof.
  unfold display_episodes. case_bool_decide; [intros [= <-]; by intros ?%elem_of_nil|].
  destruct (channel f !! "title"%string) as [name|]; [|done].
  intros [= <-] Hin.
  repeat (apply elem_of_cons in Hin as [->|Hin]; [eauto 10|]).
  apply elem_of_app in Hin as [Hbody|Hin];
    [|apply elem_of_cons in Hin as [->|[]%elem_of_nil]; eauto 10].
  unfold display_limit in Hbody.
  destruct (Nat.leb_spec (length (entries f)) 10) as [Hle|Hgt].
  - left.
    destruct (DisplayFacts.print_range_slice (entries f) (entries f) 0 x)
      as (k & ep & Hep & _ & Hx); [done | exact Hbody |].
    exists k, ep. split; [done|]. split; [left; lia | done].
  - rewrite !elem_of_app, elem_of_cons in Hbody.
    destruct Hbody as [Hfirst|[->|Hlast]].
    + left.
      destruct (DisplayFacts.print_range_slice (entries f) (take 5 (entries f)) 0 x)
        as (k & ep & Hep & Hk & Hx); [|exact Hfirst|].
      { intros i ep Hi. by apply lookup_take_Some in Hi as [? _]. }
      exists k, ep. split; [done|]. split; [|done].
      right. left. rewrite length_take in Hk. lia.
    + right. left. eexists. split; [done|]. split; lia.
    + left.
      replace (Z.of_nat (length (entries f)) - Z.of_nat 5)
        with (Z.of_nat (length (entries f) - 5)) in Hlast by lia.
      destruct (DisplayFacts.print_range_slice (entries f)
                  (drop (length (entries f) - 5) (entries f))
                  (length (entries f) - 5) x)
        as (k & ep & Hep & Hk & Hx); [|exact Hlast|].
      { intros i ep Hi. by rewrite lookup_drop in Hi. }
      exists k, ep. split; [done|]. split; [|done].
      right. right. lia.
Qed.

End ListingFacts.

(** X18. The number shown in front of an episode of the listing is the
    one to type for it: read back by [parse_range_input] it selects exactly
    the index of that episode, and [feed.entries[index]] is the episode
    shown. *)
Theorem shown_number_selects_shown_episode (f : feed) (lines : list line)
    (label name pub_date : string) :
  display_episodes (Some f) = (lines, None) ->
  EpisodeLine label name pub_date ∈ lines ->
  exists (k : nat) ep,
    entries f !! k = Some ep
    /\ name = title (entry_of ep)
    /\ label = py_format_03 (Z.of_nat k + 1)
    /\ parse_range_input label (Z.of_nat (length (entries f))) = ([Z.of_nat k], None)
    /\ py_index (entries f) (Z.of_nat k) = Some ep.
Proof.
  intros Hshow Hin.
  destruct (ListingFacts.listing_lines f lines _ Hshow Hin)
    as [(k & ep & Hep & _ & Heq)|[(n & Heq & _)|[Heq|[[? Heq]|[[? Heq]|Heq]]]]];
    try discriminate Heq.
  injection Heq as -> -> ->. exists k, ep.
  split; [done|]. split; [done|]. split; [done|].
  apply lookup_lt_Some in Hep as Hlt. split.
  - apply DisplayFacts.label_selects. lia.
  - unfold py_index. destruct (Z.leb_spec 0 (Z.of_nat k)) as [_|]; [|lia].
    by rewrite Nat2Z.id.
Qed.

Lemma shown_number_selects_shown_episode_witness :
  exists (k : nat) ep,
    [Episode mp3_entry None; Episode opus_entry (Some "Mon"%string)] !! k = Some ep
    /\ "Ep 2"%string = title (entry_of ep)
    /\ "002"%string = py_format_03 (Z.of_nat k + 1)
    /\ parse_range_input "002" (Z.of_nat 2) = ([Z.of_nat k], None)
    /\ py_index [Episode mp3_entry None; Episode opus_entry (Some "Mon"%string)]
         (Z.of_nat k) = Some ep.
Proof.
  apply (shown_number_selects_shown_episode
           (Feed {[ "title"%string := "Cast"%string ]}
                 [Episode mp3_entry None; Episode opus_entry (Some "Mon"%string)])
           [Rule; PodcastTitle "Cast"; TotalAvailable 2; Rule;
            EpisodeLine "001" "Ep 1: Pilot" "No date";
            EpisodeLine "002" "Ep 2" "Mon"; Blank]
           "002" "Ep 2" "Mon").
  - vm_compute. reflexivity.
  - set_solver.
Defined.

(** X19. The listing shows every episode when there are at most ten,
    and otherwise the first five and the last five and no other: each of
    these is there under its own number, every episode line of the listing
    is the line of one of them, no line carries the number of an episode
    that is left out, and one line counts the episodes left out:
    [total - 10]. *)
Theorem listing_shows_first_and_last_five (f : feed) (lines : list line) :
  display_episodes (Some f) = (lines, None) ->
  channel f <> ∅ ->
  let total := length (entries f) in
  let shown (k : nat) := (total <= 10)%nat \/ (k < 5)%nat \/ (total - 5 <= k)%nat in
  (forall k ep, entries f !! k = Some ep -> shown k -> line_of k ep ∈ lines)
  /\ (forall label name pub_date,
        EpisodeLine label name pub_date ∈ lines ->
        exists k ep,
          entries f !! k = Some ep /\ shown k
          /\ EpisodeLine label name pub_date = line_of k ep)
  /\ (forall k name pub_date,
        ~ shown k ->
        EpisodeLine (py_format_03 (Z.of_nat k + 1)) name pub_date ∉ lines)
  /\ (forall n, HiddenLine n ∈ lines -> (10 < total)%nat /\ n = Z.of_nat total - 10)
  /\ ((10 < total)%nat -> HiddenLine (Z.of_nat total - 10) ∈ lines).
Proof.
  intros Hshow Hchannel total shown.
  assert (forall label name pub_date,
            EpisodeLine label name pub_date ∈ lines ->
            exists k ep,
              entries f !! k = Some ep /\ shown k
              /\ EpisodeLine label name pub_date = line_of k ep) as Hback.
  { intros label name pub_date Hin.
    destruct (ListingFacts.listing_lines f lines _ Hshow Hin)
      as [(k & ep & Hep & Hk & Heq)|[(n & Heq & _)|[Heq|[[? Heq]|[[? Heq]|Heq]]]]];
      try discriminate Heq.
    by exists k, ep. }
  split; [|split; [exact Hback|split; [|split]]].
  - intros k ep Hep Hshown. revert Hshow. unfold display_episodes.
    rewrite bool_decide_eq_false_2 by done.
    destruct (channel f !! "title"%string) as [name|]; [|done].
    intros [= <-]. do 4 (apply elem_of_cons; right).
    apply elem_of_app. left. unfold display_limit. fold total.
    destruct (Nat.leb_spec total 10) as [Hle|Hgt].
    + apply (DisplayFacts.print_range_shows (entries f) 0 k ep Hep).
    + rewrite !elem_of_app.
      destruct Hshown as [?|[Hk|Hk]]; [lia| |].
      * left. apply (DisplayFacts.print_range_shows (take 5 (entries f)) 0 k ep).
        by rewrite lookup_take_lt.
      * right. right.
        replace (Z.of_nat total - Z.of_nat 5) with (Z.of_nat (total - 5)) by lia.
        replace k with ((total - 5) + (k - (total - 5)))%nat at 1 by lia.
        apply DisplayFacts.print_range_shows. rewrite lookup_drop.
        by replace (total - 5 + (k - (total - 5)))%nat with k by lia.
  - intros k name pub_date Hhidden Hin.
    destruct (Hback _ _ _ Hin) as (k' & ep & _ & Hk' & Heq).
    unfold line_of in Heq. injection Heq as Hlabel _ _.
    apply DisplayFacts.label_inj in Hlabel. by subst k'.
  - intros n Hin.
    destruct (ListingFacts.listing_lines f lines _ Hshow Hin)
      as [(k & ep & _ & _ & Heq)|[(n' & Heq & Hgt & ->)|[Heq|[[? Heq]|[[? Heq]|Heq]]]]];
      try discriminate Heq.
    by injection Heq as ->.
  - intros Hgt. revert Hshow. unfold display_episodes.
    rewrite bool_decide_eq_false_2 by done.
    destruct (channel f !! "title"%string) as [name|]; [|done].
    intros [= <-]. do 4 (apply elem_of_cons; right).
    apply elem_of_app. left. unfold display_limit. fold total.
    destruct (Nat.leb_spec total 10) as [Hle|_]; [lia|].
    apply elem_of_app. right. apply elem_of_cons. left. f_equal.
Qed.

Lemma listing_shows_first_and_last_five_witness :
  line_of 1 (Episode opus_entry (Some "Mon"%string))
  ∈ [Rule; PodcastTitle "Cast"; TotalAvailable 2; Rule;
     EpisodeLine "001" "Ep 1: Pilot" "No date";
     EpisodeLine "002" "Ep 2" "Mon"; Blank].
Proof.
  apply (listing_shows_first_and_last_five
           (Feed {[ "title"%string := "Cast"%string ]}
                 [Episode mp3_entry None; Episode opus_entry (Some "Mon"%string)])).
  - vm_compute. reflexivity.
  - vm_compute. discriminate.
  - reflexivity.
  - left. simpl. lia.
Defined.

(** ** The session of [main] *)

Module SessionFacts.

(** The indices of [parse_range_input] are indices of the feed, with or
    without an error. *)
Lemma parse_in_bounds s total :
  Forall (fun i => 0 <= i < total) (parse_range_input s total).1.
Proof.
  destruct (parse_range_input s total) as [indices err] eqn:H. simpl.
  revert H. unfold parse_range_input, invalid_selection. intros H.
  repeat match type of H with
         | context [if ?b then _ else _] => destruct b eqn:?
         | context [match ?x with _ => _ end] => destruct x eqn:?
         end;
    simplify_eq;
    repeat match goal with
           | Hb : _ && _ = true |- _ => apply andb_true_iff in Hb as [? ?]
           end;
    try (apply ParseFacts.py_range_ok; lia);
    try (by constructor).
  constructor; [lia | constructor].
Qed.

(** The error of [parse_range_input] is [None] or the one message. *)
Lemma parse_error_cases s total :
  (parse_range_input s total).2 = None
  \/ parse_range_input s total = invalid_selection.
Proof.
  unfold parse_range_input.
  repeat match goal with
         | |- context [if ?b then _ else _] => destruct b
         | |- context [match ?x with _ => _ end] => destruct x
         end; auto.
Qed.

Lemma py_index_in_range {A} (l : list A) i :
  0 <= i < Z.of_nat (length l) -> exists x, py_index l i = Some x /\ x ∈ l.
Proof.
  intros Hi. unfold py_index. destruct (Z.leb_spec 0 i) as [_|]; [|lia].
  destruct (lookup_lt_is_Some_2 l (Z.to_nat i)) as [x Hx]; [lia|].
  exists x. split; [done|]. by apply list_elem_of_lookup_2 in Hx.
Qed.

Lemma get_in_trace url (tr : list event) :
  HttpGet url ∈ tr <-> url ∈ network_calls tr.
Proof.
  unfold network_calls. rewrite list_elem_of_omap. split.
  - intros H. by exists (HttpGet url).
  - intros (ev & Hev & Heq). by destruct ev; simplify_eq.
Qed.

Section Session.

Variable http : string -> option response.
Variable ffmpeg : string -> string -> filesystem -> ffmpeg_result.

(** In the model [download_episode] returns, and it asks for nothing but
    the url the resolver gave. *)
Lemma download_summary e fs :
  exists fs' tr,
    download_episode http ffmpeg e (State fs []) = (Ok tt, State fs' tr)
    /\ forall url, HttpGet url ∈ tr -> (get_audio_enclosure e).1 = Some url.
Proof.
  destruct (AcquireFacts.resolve_cases e) as [Hno|(url & native & Hres & Hurl & Hyes)].
  - rewrite RunFacts.download_no_url by done.
    eexists _, _. split; [done|]. intros u Hin%get_in_trace. by apply elem_of_nil in Hin.
  - destruct (AcquireFacts.final_cases fs (final_of (sanitize_filename (title e))))
      as [Hex|Hnone].
    + rewrite RunFacts.download_existing by done.
      eexists _, _. split; [done|]. intros u Hin%get_in_trace.
      by apply elem_of_nil in Hin.
    + rewrite (RunFacts.download_run http ffmpeg e url native fs Hres Hurl Hnone).
      cbn zeta. rewrite Hres.
      assert (forall tr u, network_calls tr = [url] -> HttpGet u ∈ tr -> Some url = Some u)
        as Hone.
      { intros tr u Hcalls Hin%get_in_trace. rewrite Hcalls in Hin.
        by apply list_elem_of_singleton in Hin as ->. }
      destruct (transfer_of (http url)) as [data|ex partial].
      * destruct native.
        -- eexists _, _. split; [done|]. intros u. by apply Hone.
        -- destruct (ffmpeg _ _ _) as [| |code after].
           ++ eexists _, _. split; [done|]. intros u. by apply Hone.
           ++ eexists _, _. split; [done|]. intros u. by apply Hone.
           ++ destruct (code =? 0);
                (eexists _, _; split; [done|]; intros u; by apply Hone).
      * eexists _, _. split; [done|]. intros u. by apply Hone.
Qed.

(** The loop over indices of the feed runs to its end; all it writes comes
    from [download_episode], and every request is for the url of an entry
    of the feed. *)
Lemma download_all_summary eps indices fs :
  Forall (fun i => 0 <= i < Z.of_nat (length eps)) indices ->
  exists out fs',
    download_all http ffmpeg eps indices fs = (out, fs', None)
    /\ (forall o, o ∈ out -> exists ev, o = Acquisition ev)
    /\ (forall url, Acquisition (HttpGet url) ∈ out ->
        exists ep, ep ∈ eps /\ (get_audio_enclosure (entry_of ep)).1 = Some url)
    /\ (indices = [] -> out = [] /\ fs' = fs).
Proof.
  intros Hall. revert fs. induction Hall as [|i rest Hi _ IH]; intros fs.
  - exists [], fs. split; [done|]. split; [by intros ? ?%elem_of_nil|].
    split; [by intros ? ?%elem_of_nil | done].
  - cbn [download_all]. destruct (py_index_in_range eps i Hi) as (ep & -> & Hep).
    destruct (download_summary (entry_of ep) fs) as (fs1 & tr & -> & Hget).
    cbn [files trace]. destruct (IH fs1) as (out & fs' & -> & Hacq & Hurls & _).
    eexists _, _. split; [done|]. split; [|split; [|done]].
    + intros o [Ho|Ho]%elem_of_app; [|by apply Hacq].
      apply list_elem_of_fmap in Ho as (ev & -> & _). by exists ev.
    + intros url [Ho|Ho]%elem_of_app; [|by apply Hurls].
      apply list_elem_of_fmap in Ho as (ev & [= <-] & Hev).
      exists ep. split; [done|]. by apply Hget.
Qed.

(** The loop of [main] ends by [q] or at the end of the input, and asks
    the server for urls of the feed only. *)
Lemma main_loop_summary eps inputs fs :
  ((main_loop http ffmpeg eps inputs fs).2 = Returned
   \/ (main_loop http ffmpeg eps inputs fs).2 = Crashed EOFError)
  /\ forall url, Acquisition (HttpGet url) ∈ (main_loop http ffmpeg eps inputs fs).1.1 ->
       exists ep, ep ∈ eps /\ (get_audio_enclosure (entry_of ep)).1 = Some url.
Proof.
  revert fs. induction inputs as [|typed rest IH]; intros fs; cbn [main_loop].
  - split; [by right|]. intros url Hin. cbn in Hin.
    apply list_elem_of_singleton in Hin. discriminate Hin.
  - destruct (String.eqb _ "q").
    { split; [by left|]. intros url Hin. cbn in Hin.
      apply list_elem_of_singleton in Hin. discriminate Hin. }
    pose proof (parse_in_bounds
                  (Str.map Char.lower (Str.strip Char.isspace typed))
                  (Z.of_nat (length eps))) as Hbounds.
    destruct (parse_range_input _ _) as [indices error]. cbn [fst] in Hbounds.
    destruct (py_truthy error).
    + specialize (IH fs). destruct (main_loop http ffmpeg eps rest fs) as [[out fs'] e].
      cbn [fst snd] in IH |- *. destruct IH as [Hend Hurls]. split; [done|].
      intros url [Hin|[Hin|Hin]%elem_of_cons]%elem_of_cons; [done | done | by apply Hurls].
    + destruct (download_all_summary eps indices fs Hbounds)
        as (out1 & fs1 & -> & _ & Hurls1 & _).
      specialize (IH fs1). destruct (main_loop http ffmpeg eps rest fs1) as [[out fs'] e].
      cbn [fst snd] in IH |- *. destruct IH as [Hend Hurls]. split; [done|].
      intros url [Hin|[Hin|[Hin|Hin]%elem_of_cons]%elem_of_app]%elem_of_cons;
        [done | by apply Hurls1 | done | by apply Hurls].
Qed.

End Session.

End SessionFacts.
(** X20. [feed.entries[index]] in [main] never raises [IndexError].
    Every index that [parse_range_input] gives for a line, with the number
    of entries as total, is a position of the list counted from the front:
    it is not negative, so it does not reach an entry from the end, and it
    is below the length.  And no run of [main] ends by that exception. *)
Theorem selected_indices_are_entries feedparser_parse http ffmpeg
    (eps : list episode) (typed : string) (inputs : list string) (fs : filesystem) :
  Forall (fun index =>
            0 <= index < Z.of_nat (length eps)
            /\ exists ep, py_index eps index = Some ep
                          /\ eps !! Z.to_nat index = Some ep)
         (parse_range_input typed (Z.of_nat (length eps))).1
  /\ (main feedparser_parse http ffmpeg inputs fs).2 <> Crashed IndexError.
Proof.
  split.
  - apply (Forall_impl _ _ _ (SessionFacts.parse_in_bounds typed _)).
    intros index Hindex. split; [done|].
    destruct (lookup_lt_is_Some_2 eps (Z.to_nat index)) as [ep Hep]; [lia|].
    exists ep. split; [|done].
    unfold py_index. by destruct (Z.leb_spec 0 index) as [_|]; [|lia].
  - unfold main. destruct inputs as [|line rest]; [done|].
    destruct (fetch_feed _ _) as [lines [f|]]; [|done].
    destruct (display_episodes (Some f)) as [shown [c|]] eqn:Hshow.
    + cbn [snd]. intros [= ->]. revert Hshow. unfold display_episodes.
      case_bool_decide; [done|].
      by destruct (channel f !! "title"%string).
    + destruct (SessionFacts.main_loop_summary http ffmpeg (entries f) rest fs)
        as [Hend _].
      destruct (main_loop http ffmpeg (entries f) rest fs) as [[out fs'] e].
      cbn [snd] in Hend |- *. by destruct Hend as [-> | ->].
Qed.

(** X21. [main] leaves with exit code 1 exactly when [feedparser.parse]
    raised or the feed it gave has no entries, for the url typed or, for an
    empty line, the default url.  It has then asked for no selection, made
    no request and changed no file. *)
Theorem exit_one_iff_no_feed feedparser_parse http ffmpeg
    (typed : string) (rest : list string) (fs : filesystem) :
  let url := match typed with EmptyString => default_url | _ => typed end in
  let run := main feedparser_parse http ffmpeg (typed :: rest) fs in
  (run.2 = SysExit 1 <->
   feedparser_parse url = None
   \/ exists f, feedparser_parse url = Some f /\ entries f = [])
  /\ (run.2 = SysExit 1 ->
      run.1.2 = fs /\ forall o, o ∈ run.1.1 -> o = PromptUrl \/ exists l, o = Line l).
Proof.
  intros url run. unfold run, main. fold url. unfold fetch_feed.
  destruct (feedparser_parse url) as [f|].
  - destruct (entries f) as [|ep eps] eqn:Heps.
    + cbn [fst snd]. split; [split; [intros _; right; by exists f | done]|].
      intros _. split; [done|].
      intros o [->|[->|(l & -> & _)%list_elem_of_fmap]%elem_of_cons]%elem_of_cons; eauto.
    + destruct (display_episodes (Some f)) as [shown [c|]].
      * cbn [fst snd]. split; [split; [done|]|done].
        intros [?|(f' & [= <-] & Hnil)]; [done|]. by rewrite Heps in Hnil.
      * pose proof (SessionFacts.main_loop_summary http ffmpeg (entries f) rest fs)
          as [Hend _].
        destruct (main_loop http ffmpeg (entries f) rest fs) as [[out fs'] e].
        cbn [fst snd] in Hend |- *.
        split; [split|]; [by destruct Hend as [-> | ->] | | by destruct Hend as [-> | ->]].
        intros [?|(f' & [= <-] & Hnil)]; [done|]. by rewrite Heps in Hnil.
  - cbn [fst snd]. split; [split; [auto | done]|].
    intros _. split; [done|].
    intros o [->|[->|(l & -> & _)%list_elem_of_fmap]%elem_of_cons]%elem_of_cons; eauto.
Qed.



(** X23. As long as every line typed is one the parser rejects, the
    session downloads nothing: [main]'s loop prints the error once for each
    line, asks again, makes no request and leaves every file as it was. *)
Theorem rejected_lines_download_nothing http ffmpeg (eps : list episode)
    (inputs : list string) (fs : filesystem) :
  Forall (fun typed =>
            (parse_range_input typed (Z.of_nat (length eps))).2 <> None
            /\ Str.map Char.lower (Str.strip Char.isspace typed) <> "q"%string)
         inputs ->
  main_loop http ffmpeg eps inputs fs
  = (flat_map (fun _ => [PromptSelection (Z.of_nat (length eps));
                         Line (SelectionError "Invalid selection format.")])
              inputs
     ++ [PromptSelection (Z.of_nat (length eps))],
     fs, Crashed EOFError).
Proof.
  induction 1 as [|typed rest [Herr Hq] _ IH]; [done|].
  cbn [main_loop flat_map]. apply String.eqb_neq in Hq as ->.
  destruct (SessionFacts.parse_error_cases
              (Str.map Char.lower (Str.strip Char.isspace typed))
              (Z.of_nat (length eps))) as [Hnone|Hinvalid].
  - exfalso. apply Herr. revert Hnone. unfold parse_range_input.
    by rewrite SelectFacts.normalize_lowered.
  - rewrite Hinvalid. unfold invalid_selection. cbn [py_truthy]. by rewrite IH.
Qed.

Lemma rejected_lines_download_nothing_witness :
  main_loop http_ok ffmpeg_works [Episode opus_entry None] ["0"; "2-1"; ""]%string ∅
  = (flat_map (fun _ => [PromptSelection (Z.of_nat (length [Episode opus_entry None]));
                         Line (SelectionError "Invalid selection format.")])
              ["0"; "2-1"; ""]%string
     ++ [PromptSelection (Z.of_nat (length [Episode opus_entry None]))],
     ∅, Crashed EOFError).
Proof.
  apply (rejected_lines_download_nothing http_ok ffmpeg_works
           [Episode opus_entry None] ["0"; "2-1"; ""]%string ∅).
  repeat constructor; try (vm_compute; discriminate).
Defined.

(** X24. Every request [main] makes is for the url that
    [get_audio_enclosure] gives for an entry of the feed it fetched: the
    feed of the url typed or, for an empty line, of the default url. *)
Theorem session_requests_only_feed_urls feedparser_parse http ffmpeg
    (inputs : list string) (fs : filesystem) (url : string) :
  Acquisition (HttpGet url) ∈ (main feedparser_parse http ffmpeg inputs fs).1.1 ->
  exists typed rest f ep,
    inputs = typed :: rest
    /\ feedparser_parse (match typed with EmptyString => default_url | _ => typed end)
       = Some f
    /\ ep ∈ entries f
    /\ (get_audio_enclosure (entry_of ep)).1 = Some url.
Proof.
  assert (forall lines : list line, Acquisition (HttpGet url) ∉ Line <$> lines) as Hlines.
  { intros lines (l & Heq & _)%list_elem_of_fmap. discriminate Heq. }
  unfold main. destruct inputs as [|typed rest].
  { cbn [fst]. by intros [Hin|[Hin|Hin%elem_of_nil]%elem_of_cons]%elem_of_cons. }
  unfold fetch_feed.
  destruct (feedparser_parse _) as [f|] eqn:Hfeed.
  - destruct (entries f) as [|ep0 eps] eqn:Heps.
    + cbn [fst]. intros [Hin|[Hin|Hin]%elem_of_cons]%elem_of_cons; [done | done |].
      by apply Hlines in Hin.
    + destruct (display_episodes (Some f)) as [shown [c|]].
      * cbn [fst]. intros [Hin|[Hin|Hin]%elem_of_cons]%elem_of_cons; [done | done |].
        by apply Hlines in Hin.
      * pose proof (SessionFacts.main_loop_summary http ffmpeg (entries f) rest fs)
          as [_ Hurls].
        destruct (main_loop http ffmpeg (entries f) rest fs) as [[out fs'] e].
        cbn [fst] in Hurls |- *.
        intros [Hin|[Hin|[Hin|Hin]%elem_of_app]%elem_of_cons]%elem_of_cons;
          [done | done | by apply Hlines in Hin |].
        destruct (Hurls url Hin) as (ep & Hep & Hget).
        by exists typed, rest, f, ep.
  - cbn [fst]. intros [Hin|[Hin|Hin]%elem_of_cons]%elem_of_cons; [done | done |].
    by apply Hlines in Hin.
Qed.

Lemma session_requests_only_feed_urls_witness :
  exists typed rest f ep,
    [""; "2"; "q"]%string = typed :: rest
    /\ (fun _ => Some (Feed {[ "title"%string := "Cast"%string ]}
                            [Episode mp3_entry None; Episode opus_entry None]))
         (match typed with EmptyString => default_url | _ => typed end)
       = Some f
    /\ ep ∈ entries f
    /\ (get_audio_enclosure (entry_of ep)).1 = Some "http://h/2.opus"%string.
Proof.
  apply (session_requests_only_feed_urls
           (fun _ => Some (Feed {[ "title"%string := "Cast"%string ]}
                                [Episode mp3_entry None; Episode opus_entry None]))
           http_ok ffmpeg_works [""; "2"; "q"]%string ∅ "http://h/2.opus").
  vm_compute. repeat (try (left; reflexivity); right).
Defined.

(** ** The worked examples of the specification *)

Example sanitize_ex1 :
  sanitize_filename " My: Show - Ep 1?  " = "My_Show_Ep_1"%string.
Proof. vm_compute. reflexivity. Qed.

Example parse_all : parse_range_input " ALL " 3 = ([0; 1; 2], None).
Proof. vm_compute. reflexivity. Qed.

Example parse_f10 : parse_range_input "f10" 5 = ([0; 1; 2; 3; 4], None).
Proof. vm_compute. reflexivity. Qed.

Example parse_l0 : parse_range_input "l0" 5 = ([], None).
Proof. vm_compute. reflexivity. Qed.

Example parse_5_2 : parse_range_input "5-2" 5 = invalid_selection.
Proof. vm_compute. reflexivity. Qed.

Example parse_0 : parse_range_input "0" 5 = invalid_selection.
Proof. vm_compute. reflexivity. Qed.

Example py_str_ex : py_str 0 = "0"%string /\ py_str 1204 = "1204"%string /\ py_str (-15) = "-15"%string
  /\ py_str 9 = "9"%string /\ py_str 10 = "10"%string /\ py_str 1000 = "1000"%string.
Proof. vm_compute. repeat split; reflexivity. Qed.

Example resolve_opus_first :
  get_audio_enclosure
    (Entry "e" (Some [enc "audio/ogg; codecs=opus" "http://h/a.opus"; enc "audio/mpeg" "http://h/a.mp3"]))
  = (Some "http://h/a.opus"%string, true).
Proof. vm_compute. reflexivity. Qed.

Example resolve_opus_second :
  get_audio_enclosure
    (Entry "e" (Some [enc "audio/mpeg" "http://h/a.mp3"; enc "audio/ogg; codecs=opus" "http://h/a.opus"]))
  = (Some "http://h/a.opus"%string, true).
Proof. vm_compute. reflexivity. Qed.

Example resolve_video_only :
  get_audio_enclosure (Entry "e" (Some [enc "video/mp4" "http://h/a.mp4"]))
  = (None, false).
Proof. vm_compute. reflexivity. Qed.

Example parse_f3 : parse_range_input "f3" 5 = ([0; 1; 2], None).
Proof. vm_compute. reflexivity. Qed.

Example parse_l2 : parse_range_input "l2" 5 = ([3; 4], None).
Proof. vm_compute. reflexivity. Qed.

Example parse_2_4 : parse_range_input "2 - 4" 5 = ([1; 2; 3], None).
Proof. vm_compute. reflexivity. Qed.

Example parse_6 : parse_range_input "6" 5 = invalid_selection.
Proof. vm_compute. reflexivity. Qed.

Example parse_neg : parse_range_input "-3" 5 = invalid_selection.
Proof. vm_compute. reflexivity. Qed.

Example py_int_ex : py_int " +1_0 " = Some 10 /\ py_int "1__0" = None /\ py_int "-7" = Some (-7)
  /\ py_int "007" = Some 7 /\ py_int "" = None /\ py_int "_1" = None /\ py_int "1_" = None.
Proof. vm_compute. repeat split; reflexivity. Qed.
